(** * The versioned manifest protocol of [Manifest]

    A shallow embedding of the [Manifest] class (save, load,
    saveAssetManifest, loadAssetManifest, version, _validate,
    patchStackTags) and of the JavaScript values it manipulates.

    The class works on whatever [JSON.parse] returns, so the embedding is
    untyped: a document is a [value], property reads on [null] raise a
    [TypeError], and the in-place rewrites of [patchStackTags] are rebuilt
    functionally (a parsed document is a tree, nothing in it is shared). *)

From Stdlib Require Import String Ascii List Arith NArith Bool Lia.
From Stdlib Require Import DecimalString.
Import ListNotations.
Local Open Scope list_scope.
Local Open Scope string_scope.
Set Warnings "-register-all".

(** ** JavaScript values and the exceptions the code can raise *)

Module JS.

(** A value as [JSON.parse] builds it, plus [undefined], which property
    reads and the object literal of [patchStackTags] introduce.  An object
    is the list of its own properties in the order they were created
    (names that are array indices, which the engine enumerates first, get
    no special place).  A number is kept as the text ToString gives it
    ([1.5], [1e+21], [NaN]; zero and minus zero are both [0]): the code
    only ever tests a number for truthiness or prints it. *)
Inductive value : Type :=
| VUndef
| VNull
| VBool (b : bool)
| VNum (text : string)
| VStr (s : string)
| VArr (items : list value)
| VObj (props : list (string * value)).

(** What a call can throw: the engine's [TypeError], the [SyntaxError] of
    [JSON.parse], the missing-file error of [fs.readFileSync], and
    [new Error(msg)]. *)
Inductive exn : Type :=
| TypeError
| SyntaxError
| ENOENT (path : string)
| Error (msg : string).

Inductive result (A : Type) : Type :=
| Ok (a : A)
| Throw (e : exn).
Arguments Ok {A} a.
Arguments Throw {A} e.

Definition bind {A B : Type} (r : result A) (k : A -> result B) : result B :=
  match r with
  | Ok a => k a
  | Throw e => Throw e
  end.

Declare Scope js_scope.
Delimit Scope js_scope with js.
Notation "x <- r ;; k" := (bind r (fun x => k))
  (at level 61, r at next level, right associativity) : js_scope.
Local Open Scope js_scope.

Fixpoint mapM {A B : Type} (f : A -> result B) (l : list A) : result (list B) :=
  match l with
  | [] => Ok []
  | a :: rest => b <- f a ;; bs <- mapM f rest ;; Ok (b :: bs)
  end.

(** [lookup k ps]: the value of own property [k], [undefined] when there
    is none. *)
Fixpoint lookup (k : string) (ps : list (string * value)) : value :=
  match ps with
  | [] => VUndef
  | (k', v) :: rest => if String.eqb k k' then v else lookup k rest
  end.

Fixpoint has_key (k : string) (ps : list (string * value)) : bool :=
  match ps with
  | [] => false
  | (k', _) :: rest => String.eqb k k' || has_key k rest
  end.

(** [assign k v ps]: the assignment [o.k = v] on the property list of [o].
    An existing property keeps its place, a new one goes last. *)
Fixpoint assign (k : string) (v : value) (ps : list (string * value))
  : list (string * value) :=
  match ps with
  | [] => [(k, v)]
  | (k', v') :: rest =>
      if String.eqb k k' then (k', v) :: rest else (k', v') :: assign k v rest
  end.

(** [v.k] for a property name [k] that no built-in prototype defines (the
    code reads [artifacts], [type], [metadata], [data], [version], [Key]
    and [Value]): a [TypeError] on [null] and [undefined], the own property
    of an object, [undefined] on everything else. *)
Definition get (v : value) (k : string) : result value :=
  match v with
  | VUndef | VNull => Throw TypeError
  | VObj ps => Ok (lookup k ps)
  | _ => Ok VUndef
  end.

(** [o.k = v] where [o] is known to be an object; primitives ignore the
    write. *)
Definition set (o : value) (k : string) (v : value) : value :=
  match o with
  | VObj ps => VObj (assign k v ps)
  | _ => o
  end.

(** ToBoolean. *)
Definition truthy (v : value) : bool :=
  match v with
  | VUndef | VNull => false
  | VBool b => b
  | VNum t => negb (String.eqb t "0" || String.eqb t "NaN")
  | VStr s => negb (String.eqb s "")
  | VArr _ | VObj _ => true
  end.

(** [a || b]. *)
Definition or_else (a b : value) : value := if truthy a then a else b.

(** [v === c] for a string constant [c]. *)
Definition strict_eq_str (v : value) (c : string) : bool :=
  match v with
  | VStr s => String.eqb s c
  | _ => false
  end.

(** The one-character strings a string iterates over. *)
Fixpoint chars (s : string) : list value :=
  match s with
  | EmptyString => []
  | String c rest => VStr (String c EmptyString) :: chars rest
  end.

(** The loop [for (const x of Object.values(c)) body(x)] where the body
    may rewrite the object [x] in place: the container comes back with the
    rewritten members.  The members of a string are fresh one-character
    strings, so the body runs on them and the string stays as it is;
    numbers and booleans have no members. *)
Definition for_values (body : value -> result value) (c : value) : result value :=
  match c with
  | VUndef | VNull => Throw TypeError
  | VObj ps =>
      ps' <- mapM (fun kv => v' <- body (snd kv) ;; Ok (fst kv, v')) ps ;;
      Ok (VObj ps')
  | VArr l => l' <- mapM body l ;; Ok (VArr l')
  | VStr s => _ <- mapM body (chars s) ;; Ok c
  | VBool _ | VNum _ => Ok c
  end.

(** The loop [for (const x of c) body(x)]: only arrays and strings are
    iterable. *)
Definition for_of (body : value -> result value) (c : value) : result value :=
  match c with
  | VArr l => l' <- mapM body l ;; Ok (VArr l')
  | VStr s => _ <- mapM body (chars s) ;; Ok c
  | _ => Throw TypeError
  end.

(** [a.map(f)]: only an array has a [map] method; calling the missing
    method of anything else is a [TypeError]. *)
Definition array_map (f : value -> result value) (a : value) : result value :=
  match a with
  | VArr l => l' <- mapM f l ;; Ok (VArr l')
  | _ => Throw TypeError
  end.

(** The own enumerable properties an object spread [...v] copies: those
    of an object, the indexed members of an array or of a string, nothing
    for the other primitives. *)
Fixpoint indexed (i : nat) (l : list value) : list (string * value) :=
  match l with
  | [] => []
  | x :: rest => (NilEmpty.string_of_uint (Nat.to_uint i), x) :: indexed (S i) rest
  end.

Definition own_props (v : value) : list (string * value) :=
  match v with
  | VObj ps => ps
  | VArr l => indexed 0 l
  | VStr s => indexed 0 (chars s)
  | _ => []
  end.

(** The object literal [{ k: v0, ...m }]: [k] is created first, then every
    own property of [m] is assigned in turn. *)
Definition literal_spread (k : string) (v0 : value) (m : value) : value :=
  VObj (fold_left (fun acc kv => assign (fst kv) (snd kv) acc) (own_props m) [(k, v0)]).

(** ToString, as a template literal applies it.  An object goes through
    its [toString] method: one that has an own [toString] property, which
    in a parsed document is never a function, has no usable method left
    ([valueOf] gives the object back), and the conversion is a
    [TypeError].  An array joins the conversions of its members, [null]
    and [undefined] counting as empty. *)
Fixpoint to_string (v : value) : result string :=
  match v with
  | VUndef => Ok "undefined"
  | VNull => Ok "null"
  | VBool true => Ok "true"
  | VBool false => Ok "false"
  | VNum t => Ok t
  | VStr s => Ok s
  | VArr l =>
      (fix join (l : list value) : result string :=
         match l with
         | [] => Ok ""
         | x :: rest =>
             sx <- match x with
                   | VUndef | VNull => Ok ""
                   | _ => to_string x
                   end ;;
             match rest with
             | [] => Ok sx
             | _ :: _ => sr <- join rest ;; Ok (sx ++ "," ++ sr)
             end
         end) l
  | VObj ps => if has_key "toString" ps then Throw TypeError else Ok "[object Object]"
  end.

Definition dquote : string := String (ascii_of_nat 34) EmptyString.
Definition newline : string := String (ascii_of_nat 10) EmptyString.

End JS.
Import JS.
Local Open Scope js_scope.

(** ** The Manifest class *)

Module Manifest.

(** *** patchStackTags *)

Section PatchStackTags.

(** [assembly.ArtifactType.AWS_CLOUDFORMATION_STACK] and
    [ArtifactMetadataEntryType.STACK_TAGS]: string enum members declared
    in [./schema] and [./metadata-schema]. *)
Variable AWS_CLOUDFORMATION_STACK : string.
Variable STACK_TAGS : string.

(** [(t: any) => { return { key: t.Key, value: t.Value }; }] *)
Definition patchTag (t : value) : result value :=
  k <- get t "Key" ;;
  v <- get t "Value" ;;
  Ok (VObj [("key", k); ("value", v)]).

(** The body of the innermost loop, on one [metadataEntry]. *)
Definition patchEntry (metadataEntry : value) : result value :=
  ty <- get metadataEntry "type" ;;
  if strict_eq_str ty STACK_TAGS then
    data <- get metadataEntry "data" ;;
    if truthy data then
      data' <- array_map patchTag data ;;
      Ok (set metadataEntry "data" data')
    else Ok metadataEntry
  else Ok metadataEntry.

(** The body of the outer loop, on one [artifact]. *)
Definition patchArtifact (artifact : value) : result value :=
  ty <- get artifact "type" ;;
  if strict_eq_str ty AWS_CLOUDFORMATION_STACK then
    metadata <- get artifact "metadata" ;;
    metadata' <- for_values (for_of patchEntry) (or_else metadata (VArr [])) ;;
    Ok (if truthy metadata then set artifact "metadata" metadata' else artifact)
  else Ok artifact.

(** [patchStackTags(manifest)]: the manifest as the loops leave it, or the
    [TypeError] that stops them. *)
Definition patchStackTags (manifest : value) : result value :=
  artifacts <- get manifest "artifacts" ;;
  artifacts' <- for_values patchArtifact (or_else artifacts (VArr [])) ;;
  Ok (if truthy artifacts then set manifest "artifacts" artifacts' else manifest).

End PatchStackTags.

(** *** What the class imports

    [jsonschema], [semver], [fs], [JSON] and the two embedded JSON files
    are not part of the class: they are the fields of an environment
    [Env], and the protocol is stated for every environment. *)

(** The options object handed to [validator.validate]. *)
Record ValidatorOptions : Type := {
  nestedErrors : bool;
  allowUnknownAttributes : bool }.

(** Modelled from the spec: the [ValidationResult] of the Schema Validator
    (the source imports it from [jsonschema]), which is valid or carries
    an ordered sequence of error descriptions, each locating one violation
    by a path. *)
Record ValidationError : Type := {
  property : string;
  message : string }.

Record ValidatorResult : Type := {
  errors : list ValidationError }.

(** [result.valid] *)
Definition valid (r : ValidatorResult) : bool :=
  match errors r with
  | [] => true
  | _ :: _ => false
  end.

(** Modelled from the spec: the text [`${result}`] of a validation result
    enumerates every error, one numbered line each. *)
Definition error_toString (e : ValidationError) : string :=
  property e ++ " " ++ message e.

Fixpoint error_lines (i : nat) (es : list ValidationError) : string :=
  match es with
  | [] => ""
  | e :: rest =>
      NilEmpty.string_of_uint (Nat.to_uint i) ++ ": " ++ error_toString e
        ++ newline ++ error_lines (S i) rest
  end.

Definition result_toString (r : ValidatorResult) : string :=
  error_lines 0 (errors r).

Record Env : Type := {
  (** the text of a file *)
  text : Type;
  (** a JSON schema as [jsonschema] takes it *)
  Schema : Type;
  (** [JSON.parse]; [None] is its [SyntaxError] *)
  JSON_parse : text -> option value;
  (** [JSON.stringify(v, undefined, 2)] *)
  JSON_stringify : value -> text;
  (** [semver.valid]; [None] is its [null] *)
  semver_valid : value -> option string;
  (** [semver.gt] *)
  semver_gt : string -> string -> result bool;
  (** [new jsonschema.Validator().validate] *)
  Validator_validate : value -> Schema -> ValidatorOptions -> result ValidatorResult;
  (** [require('../schema/cloud-assembly.version.json').version] *)
  cloud_assembly_version : value;
  (** [require('../schema/cloud-assembly.schema.json')] *)
  cloud_assembly_schema : Schema;
  AWS_CLOUDFORMATION_STACK : string;
  STACK_TAGS : string }.

(** One call of [validator.validate], as the class issues it. *)
Record ValidatorCall (E : Env) : Type := {
  call_instance : value;
  call_schema : Schema E;
  call_options : ValidatorOptions }.
Arguments call_instance {E} _.
Arguments call_schema {E} _.
Arguments call_options {E} _.

(** The world a call runs in: the files by path; the verdict of the file
    system on writing a text to a path, which is to accept it or to throw
    an error and leave the file with some content or none; and the calls
    made to the validator so far, latest first. *)
Record World (E : Env) : Type := {
  files : string -> option (text E);
  write_refused : string -> text E -> option (exn * option (text E));
  validator_calls : list (ValidatorCall E) }.
Arguments files {E} _ _.
Arguments write_refused {E} _ _ _.
Arguments validator_calls {E} _.

(** this prefix is used by the CLI to identify this specific error. *)
Definition VERSION_MISMATCH : string := "Cloud assembly schema version mismatch".

Section Protocol.

Variable E : Env.

(** A call either returns or throws, and leaves a world behind. *)
Definition M (A : Type) : Type := World E -> result A * World E.

Definition ret {A : Type} (a : A) : M A := fun w => (Ok a, w).

Definition throw {A : Type} (e : exn) : M A := fun w => (Throw e, w).

Definition lift {A : Type} (r : result A) : M A := fun w => (r, w).

Definition bindM {A B : Type} (m : M A) (k : A -> M B) : M B :=
  fun w =>
    match m w with
    | (Ok a, w') => k a w'
    | (Throw e, w') => (Throw e, w')
    end.

Declare Scope io_scope.
Delimit Scope io_scope with io.
Notation "x <- m ;; k" := (bindM m (fun x => k))
  (at level 61, m at next level, right associativity) : io_scope.

(** [fs.readFileSync(filePath, 'UTF-8')] *)
Definition readFileSync (filePath : string) : M (text E) :=
  fun w =>
    match files w filePath with
    | Some t => (Ok t, w)
    | None => (Throw (ENOENT filePath), w)
    end.

(** The world in which the file at [filePath] holds [content]. *)
Definition with_file (w : World E) (filePath : string) (content : option (text E))
  : World E :=
  {| files := fun p => if String.eqb p filePath then content else files w p;
     write_refused := write_refused w;
     validator_calls := validator_calls w |}.

(** [fs.writeFileSync(filePath, t)]: the file holds [t] afterwards, unless
    the file system refuses the write and throws. *)
Definition writeFileSync (filePath : string) (t : text E) : M unit :=
  fun w =>
    match write_refused w filePath t with
    | None => (Ok tt, with_file w filePath (Some t))
    | Some (e, remains) => (Throw e, with_file w filePath remains)
    end.

(** [JSON.parse(t)] *)
Definition parse (t : text E) : M value :=
  match JSON_parse E t with
  | Some v => ret v
  | None => throw SyntaxError
  end.

(** [validator.validate(instance, schema, options)] *)
Definition validator_validate (c : ValidatorCall E) : M ValidatorResult :=
  fun w =>
    (Validator_validate E (call_instance c) (call_schema c) (call_options c),
     {| files := files w;
        write_refused := write_refused w;
        validator_calls := c :: validator_calls w |}).

(** [Manifest.version()] *)
Definition version : value := cloud_assembly_version E.

(** [Manifest.schema] *)
Definition schema : Schema E := cloud_assembly_schema E.

(** [Manifest.save] *)
Definition save (manifest : value) (filePath : string) : M unit :=
  let withVersion := literal_spread "version" version manifest in
  writeFileSync filePath (JSON_stringify E withVersion).

(** [throw new Error(`Invalid semver string: "${v}"`)]: the template
    literal is evaluated first, and its conversion of [v] can throw. *)
Definition throw_invalid_semver (v : value) : result string :=
  s <- to_string v ;;
  Throw (Error ("Invalid semver string: " ++ dquote ++ s ++ dquote)).

(** The local function [parseVersion] of [_validate]. *)
Definition parseVersion (v : value) : result string :=
  match semver_valid E v with
  | Some ver => if String.eqb ver "" then throw_invalid_semver v else Ok ver
  | None => throw_invalid_semver v
  end.

(** [Manifest._validate] *)
Definition _validate (assmbly : value) (version_ : value) : M unit :=
  (maxSupported <- lift (parseVersion version) ;;
   actual <- lift (parseVersion version_) ;;
   newer <- lift (semver_gt E actual maxSupported) ;;
   if (newer : bool) then
     throw (Error (VERSION_MISMATCH ++ ": Maximum schema version supported is "
                     ++ maxSupported ++ ", but found " ++ actual))
   else
     result <- validator_validate
                 {| call_instance := assmbly;
                    call_schema := schema;
                    call_options := {| nestedErrors := true;
                                       allowUnknownAttributes := false |} |} ;;
     if negb (valid result) then
       throw (Error ("Invalid assembly manifest:" ++ newline ++ result_toString result))
     else ret tt)%io.

(** [Manifest.load] *)
Definition load (filePath : string) : M value :=
  (t <- readFileSync filePath ;;
   raw <- parse t ;;
   raw' <- lift (patchStackTags (AWS_CLOUDFORMATION_STACK E) (STACK_TAGS E) raw) ;;
   v <- lift (get raw' "version") ;;
   _ <- _validate (VObj [("manifest", raw')]) v ;;
   ret raw')%io.

(** [Manifest.saveAssetManifest] *)
Definition saveAssetManifest (assetManifest : value) (filePath : string) : M unit :=
  let withVersion := literal_spread "version" version assetManifest in
  writeFileSync filePath (JSON_stringify E withVersion).

(** [Manifest.loadAssetManifest] *)
Definition loadAssetManifest (filePath : string) : M value :=
  (t <- readFileSync filePath ;;
   raw <- parse t ;;
   v <- lift (get raw "version") ;;
   _ <- _validate (VObj [("assets", raw)]) v ;;
   ret raw)%io.

End Protocol.

Arguments ret {E A} a _.
Arguments throw {E A} e _.
Arguments lift {E A} r _.
Arguments bindM {E A B} m k _.

(** [m1; m2]: two calls in sequence. *)
Definition seq {E : Env} {A B : Type} (m1 : M E A) (m2 : M E B) : M E B :=
  bindM m1 (fun _ => m2).

End Manifest.

(** ** The Version Comparator *)

Module Semver.

(** Modelled from the spec: the Version Comparator, which the source
    imports as the [semver] package.  A version has three numeric
    components and a pre-release tag, a dot-separated sequence of
    identifiers that are numeric or alphanumeric; build metadata does not
    take part in precedence and is dropped by parsing. *)
Inductive identifier : Type :=
| Numeric (n : N)
| Alphanumeric (s : string).

Record version : Type := {
  major : N;
  minor : N;
  patch : N;
  prerelease : list identifier }.

Definition is_digit (c : ascii) : bool :=
  let n := nat_of_ascii c in (48 <=? n)%nat && (n <=? 57)%nat.

Definition is_letter (c : ascii) : bool :=
  let n := nat_of_ascii c in
  ((65 <=? n)%nat && (n <=? 90)%nat) || ((97 <=? n)%nat && (n <=? 122)%nat).

Definition is_ident_char (c : ascii) : bool :=
  is_digit c || is_letter c || (nat_of_ascii c =? 45)%nat.

Fixpoint all_chars (p : ascii -> bool) (s : string) : bool :=
  match s with
  | EmptyString => true
  | String c rest => p c && all_chars p rest
  end.

(** The text before the first [c] and, when [c] occurs, the text after
    it. *)
Fixpoint cut (c : ascii) (s : string) : string * option string :=
  match s with
  | EmptyString => (EmptyString, None)
  | String d rest =>
      if Ascii.eqb c d then (EmptyString, Some rest)
      else let (a, b) := cut c rest in (String d a, b)
  end.

(** The fields of [s] between the occurrences of [c]. *)
Fixpoint split (c : ascii) (s : string) : list string :=
  match s with
  | EmptyString => [EmptyString]
  | String d rest =>
      if Ascii.eqb c d then EmptyString :: split c rest
      else match split c rest with
           | f :: fs => String d f :: fs
           | [] => [String d EmptyString]
           end
  end.

Fixpoint digits_value (acc : N) (s : string) : N :=
  match s with
  | EmptyString => acc
  | String c rest => digits_value (acc * 10 + N.of_nat (nat_of_ascii c - 48)) rest
  end.

(** Modelled from the spec: a numeric field is a non-empty run of digits
    without a leading zero. *)
Definition parse_numeric (s : string) : option N :=
  match s with
  | EmptyString => None
  | String c rest =>
      if all_chars is_digit s
           && (negb (Ascii.eqb c "0"%char) || String.eqb rest EmptyString)
      then Some (digits_value 0 s)
      else None
  end.

Definition parse_identifier (s : string) : option identifier :=
  match s with
  | EmptyString => None
  | String _ _ =>
      if all_chars is_digit s then option_map Numeric (parse_numeric s)
      else if all_chars is_ident_char s then Some (Alphanumeric s)
      else None
  end.

Definition build_identifier_ok (s : string) : bool :=
  negb (String.eqb s EmptyString) && all_chars is_ident_char s.

Fixpoint all_some {A : Type} (l : list (option A)) : option (list A) :=
  match l with
  | [] => Some []
  | Some a :: rest => option_map (cons a) (all_some rest)
  | None :: _ => None
  end.

(** Modelled from the spec: [parse(text)], which fails when [text] is not
    a syntactically valid semantic version
    [MAJOR.MINOR.PATCH(-PRERELEASE)?(+BUILD)?]. *)
Definition parse (s : string) : option version :=
  let (body, build) := cut "+"%char s in
  let build_ok :=
    match build with
    | None => true
    | Some b => forallb build_identifier_ok (split "."%char b)
    end in
  if build_ok then
    let (core, pre) := cut "-"%char body in
    match map parse_numeric (split "."%char core) with
    | [Some a; Some b; Some c] =>
        match pre with
        | None => Some {| major := a; minor := b; patch := c; prerelease := [] |}
        | Some p =>
            option_map
              (fun ids => {| major := a; minor := b; patch := c; prerelease := ids |})
              (all_some (map parse_identifier (split "."%char p)))
        end
    | _ => None
    end
  else None.

Definition format_N (n : N) : string := NilEmpty.string_of_uint (N.to_uint n).

Definition format_identifier (i : identifier) : string :=
  match i with
  | Numeric n => format_N n
  | Alphanumeric s => s
  end.

Fixpoint join (sep : string) (l : list string) : string :=
  match l with
  | [] => EmptyString
  | [x] => x
  | x :: rest => x ++ sep ++ join sep rest
  end.

(** The canonical text of a version, without build metadata. *)
Definition format (v : version) : string :=
  format_N (major v) ++ "." ++ format_N (minor v) ++ "." ++ format_N (patch v)
  ++ match prerelease v with
     | [] => EmptyString
     | ids => "-" ++ join "." (map format_identifier ids)
     end.

(** Modelled from the spec: [semver.valid], the canonical text of a valid
    version string, nothing for any other value. *)
Definition valid (v : value) : option string :=
  match v with
  | VStr s => option_map format (parse s)
  | _ => None
  end.

(** Numeric identifiers compare as numbers, alphanumeric ones in ASCII
    order, and a numeric identifier is lower than an alphanumeric one. *)
Definition compareIdentifiers (a b : identifier) : comparison :=
  match a, b with
  | Numeric n, Numeric m => N.compare n m
  | Numeric _, Alphanumeric _ => Lt
  | Alphanumeric _, Numeric _ => Gt
  | Alphanumeric s, Alphanumeric t => String.compare s t
  end.

(** Identifier by identifier; when one list runs out first, the longer
    one is the later. *)
Fixpoint compareFields (p q : list identifier) : comparison :=
  match p, q with
  | [], [] => Eq
  | [], _ :: _ => Lt
  | _ :: _, [] => Gt
  | a :: p', b :: q' =>
      match compareIdentifiers a b with
      | Eq => compareFields p' q'
      | c => c
      end
  end.

(** A version without a pre-release tag is later than one with a tag. *)
Definition comparePre (p q : list identifier) : comparison :=
  match p, q with
  | [], [] => Eq
  | [], _ :: _ => Gt
  | _ :: _, [] => Lt
  | _ :: _, _ :: _ => compareFields p q
  end.

Definition compareMain (a b : version) : comparison :=
  match N.compare (major a) (major b) with
  | Eq =>
      match N.compare (minor a) (minor b) with
      | Eq => N.compare (patch a) (patch b)
      | c => c
      end
  | c => c
  end.

Definition compare (a b : version) : comparison :=
  match compareMain a b with
  | Eq => comparePre (prerelease a) (prerelease b)
  | c => c
  end.

(** Modelled from the spec: [compareGreaterThan(a, b)]. *)
Definition compareGreaterThan (a b : version) : bool :=
  match compare a b with
  | Gt => true
  | _ => false
  end.

(** Modelled from the spec: [semver.gt] on version strings; it throws on
    a string that is not a version. *)
Definition gt (a b : string) : result bool :=
  match parse a, parse b with
  | Some va, Some vb => Ok (compareGreaterThan va vb)
  | _, _ => Throw TypeError
  end.

(** *** Precedence, as the semantic-versioning rules word it *)

(** ASCII sort order on strings. *)
Inductive ascii_before : string -> string -> Prop :=
| before_empty : forall c s, ascii_before EmptyString (String c s)
| before_head : forall c d s t,
    (nat_of_ascii c < nat_of_ascii d)%nat -> ascii_before (String c s) (String d t)
| before_tail : forall c s t,
    ascii_before s t -> ascii_before (String c s) (String c t).

(** [identifier_later a b]: [a] has higher precedence than [b]. *)
Inductive identifier_later : identifier -> identifier -> Prop :=
| later_numeric : forall n m, (m < n)%N -> identifier_later (Numeric n) (Numeric m)
| later_alphanumeric : forall s t,
    ascii_before t s -> identifier_later (Alphanumeric s) (Alphanumeric t)
| later_kind : forall s n, identifier_later (Alphanumeric s) (Numeric n).

(** [fields_later p q]: the first differing identifier decides; a larger
    set of fields is later when all the preceding ones are equal. *)
Inductive fields_later : list identifier -> list identifier -> Prop :=
| later_longer : forall a p, fields_later (a :: p) []
| later_first : forall a b p q, identifier_later a b -> fields_later (a :: p) (b :: q)
| later_rest : forall a p q, fields_later p q -> fields_later (a :: p) (a :: q).

(** [tag_later p q]: a release is later than any of its pre-releases; two
    pre-releases compare by their fields. *)
Definition tag_later (p q : list identifier) : Prop :=
  match p, q with
  | [], _ :: _ => True
  | _ :: _, _ :: _ => fields_later p q
  | _, [] => False
  end.

(** [later a b]: [a] denotes a strictly later release than [b]. *)
Definition later (a b : version) : Prop :=
  (major b < major a)%N
  \/ (major a = major b /\ (minor b < minor a)%N)
  \/ (major a = major b /\ minor a = minor b /\ (patch b < patch a)%N)
  \/ (major a = major b /\ minor a = minor b /\ patch a = patch b
      /\ tag_later (prerelease a) (prerelease b)).

End Semver.

(** ** The Schema Validator *)

Module Jsonschema.

Import Manifest.

(** Modelled from the spec: the schema grammar the Schema Validator
    checks a document against (the source embeds it as a JSON file and
    hands it to the [jsonschema] package).  A grammar constrains the type
    of a value, the declared and the required properties of an object,
    whether the object is closed ([additionalProperties: false]), and the
    items of an array. *)
Inductive jtype : Type := TObject | TArray | TString | TNumber | TBoolean | TNull.

Inductive grammar : Type :=
| Any
| OfType (t : jtype)
| Object (properties : list (string * grammar)) (required : list string) (closed : bool)
| Array (items : grammar).

Definition type_name (t : jtype) : string :=
  match t with
  | TObject => "object"
  | TArray => "array"
  | TString => "string"
  | TNumber => "number"
  | TBoolean => "boolean"
  | TNull => "null"
  end.

Definition has_type (t : jtype) (v : value) : bool :=
  match t, v with
  | TObject, VObj _ => true
  | TArray, VArr _ => true
  | TString, VStr _ => true
  | TNumber, VNum _ => true
  | TBoolean, VBool _ => true
  | TNull, VNull => true
  | _, _ => false
  end.

Definition type_error (path : string) (t : jtype) : ValidationError :=
  {| property := path; message := "is not of a type(s) " ++ type_name t |}.

Definition additional_error (path k : string) : ValidationError :=
  {| property := path;
     message := "additionalProperty " ++ dquote ++ k ++ dquote
                  ++ " exists in instance when not allowed" |}.

Definition required_error (path k : string) : ValidationError :=
  {| property := path; message := "requires property " ++ dquote ++ k ++ dquote |}.

Fixpoint declared (k : string) (properties : list (string * grammar)) : bool :=
  match properties with
  | [] => false
  | (k', _) :: rest => String.eqb k k' || declared k rest
  end.

(** The properties of the document that a closed grammar does not
    declare, in document order. *)
Fixpoint undeclared (path : string) (properties : list (string * grammar))
    (fields : list (string * value)) : list ValidationError :=
  match fields with
  | [] => []
  | (k, _) :: rest =>
      if declared k properties then undeclared path properties rest
      else additional_error path k :: undeclared path properties rest
  end.

Fixpoint missing (path : string) (required : list string)
    (fields : list (string * value)) : list ValidationError :=
  match required with
  | [] => []
  | k :: rest =>
      if has_key k fields then missing path rest fields
      else required_error path k :: missing path rest fields
  end.

(** Modelled from the spec: [validate(document, grammar)] collects every
    violation, recursing into nested structures and locating each one by
    a path. *)
Fixpoint check (g : grammar) (path : string) (v : value) : list ValidationError :=
  match g with
  | Any => []
  | OfType t => if has_type t v then [] else [type_error path t]
  | Object properties required closed =>
      match v with
      | VObj fields =>
          ((fix nested (ps : list (string * grammar)) : list ValidationError :=
              match ps with
              | [] => []
              | (k, gk) :: rest =>
                  (if has_key k fields
                   then check gk (path ++ "." ++ k) (lookup k fields)
                   else []) ++ nested rest
              end) properties
           ++ (if closed then undeclared path properties fields else [])
           ++ missing path required fields)%list
      | _ => [type_error path TObject]
      end
  | Array items =>
      match v with
      | VArr l =>
          (fix each (i : nat) (l : list value) : list ValidationError :=
             match l with
             | [] => []
             | x :: rest =>
                 (check items
                    (path ++ "[" ++ NilEmpty.string_of_uint (Nat.to_uint i) ++ "]") x
                  ++ each (S i) rest)%list
             end) 0%nat l
      | _ => [type_error path TArray]
      end
  end.

Definition validate (instance : value) (g : grammar) (options : ValidatorOptions)
  : result ValidatorResult :=
  Ok {| errors := check g "instance" instance |}.

End Jsonschema.

(** ** A concrete environment

    The file text is the JSON value it denotes ([None] for a text that is
    not JSON), the version comparator and the validator are the two models
    above, and the two enum members have the values the schema package
    gives them. *)

Module Concrete.

Import Manifest.

(** What [JSON.stringify] keeps of a value: a property whose value is
    [undefined] is left out, an [undefined] array member becomes
    [null]. *)
Fixpoint to_json (v : value) : value :=
  match v with
  | VArr l =>
      VArr ((fix members (l : list value) : list value :=
               match l with
               | [] => []
               | x :: rest =>
                   match x with
                   | VUndef => VNull
                   | _ => to_json x
                   end :: members rest
               end) l)
  | VObj ps =>
      VObj ((fix props (ps : list (string * value)) : list (string * value) :=
               match ps with
               | [] => []
               | (k, x) :: rest =>
                   match x with
                   | VUndef => props rest
                   | _ => (k, to_json x) :: props rest
                   end
               end) ps)
  | VNum t =>
      if String.eqb t "NaN" || String.eqb t "Infinity" || String.eqb t "-Infinity"
      then VNull else v
  | _ => v
  end.

Definition env (current : value) (g : Jsonschema.grammar) : Env :=
  {| text := option value;
     Schema := Jsonschema.grammar;
     JSON_parse := fun t => t;
     JSON_stringify := fun v => Some (to_json v);
     semver_valid := Semver.valid;
     semver_gt := Semver.gt;
     Validator_validate := Jsonschema.validate;
     cloud_assembly_version := current;
     cloud_assembly_schema := g;
     AWS_CLOUDFORMATION_STACK := "aws:cloudformation:stack";
     STACK_TAGS := "aws:cdk:stack-tags" |}.

(** The world with the given files, a file system that accepts every
    write, and no validator call yet. *)
Definition world (E : Env) (fs : list (string * text E)) : World E :=
  {| files := fun p =>
       (fix find (l : list (string * text E)) : option (text E) :=
          match l with
          | [] => None
          | (q, t) :: rest => if String.eqb p q then Some t else find rest
          end) fs;
     write_refused := fun _ _ => None;
     validator_calls := [] |}.

(** The scenario of the spec: current version 10.0.0, and one closed
    grammar for the [Assembly] wrapper, which declares a [manifest] with a
    [version] string and an [artifacts] object, and an [assets] document
    with a [version] string and a [files] object. *)
Definition manifest_grammar : Jsonschema.grammar :=
  Jsonschema.Object
    [("version", Jsonschema.OfType Jsonschema.TString);
     ("artifacts", Jsonschema.OfType Jsonschema.TObject)]
    ["version"] true.

Definition assets_grammar : Jsonschema.grammar :=
  Jsonschema.Object
    [("version", Jsonschema.OfType Jsonschema.TString);
     ("files", Jsonschema.OfType Jsonschema.TObject)]
    ["version"] true.

Definition assembly_grammar : Jsonschema.grammar :=
  Jsonschema.Object [("manifest", manifest_grammar); ("assets", assets_grammar)] [] true.

Definition E10 : Env := env (VStr "10.0.0") assembly_grammar.

(** The same build with a grammar that accepts every document. *)
Definition E10_open : Env := env (VStr "10.0.0") Jsonschema.Any.

(** A stack-tags metadata entry with the given payload, inside a
    cloud-stack artifact [s] of a manifest of the given version. *)
Definition tags_entry (payload : value) : value :=
  VObj [("type", VStr "aws:cdk:stack-tags"); ("data", payload)].

Definition stack_with (entries : list value) : value :=
  VObj [("type", VStr "aws:cloudformation:stack");
        ("metadata", VObj [("/s", VArr entries)])].

Definition manifest_with (fields : list (string * value)) (payload : value)
  : list (string * value) :=
  (fields ++ [("artifacts", VObj [("s", stack_with [tags_entry payload])])])%list.

Definition legacy_payload : value :=
  VArr [VObj [("Key", VStr "env"); ("Value", VStr "prod")]].

Definition canonical_payload : value :=
  VArr [VObj [("key", VStr "env"); ("value", VStr "prod")]].

Definition annotated_payload : value :=
  VArr [VObj [("Key", VStr "env"); ("Value", VStr "prod"); ("Note", VStr "x")]].

Definition blank_payload : value :=
  VArr [VObj [("key", VUndef); ("value", VUndef)]].

(** A manifest with the given [version] and no artifact. *)
Definition plain_manifest (v : string) : value :=
  VObj [("version", VStr v); ("artifacts", VObj [])].

(** A manifest whose only artifact entry is [null]. *)
Definition null_artifact_manifest (fields : list (string * value)) : value :=
  VObj (fields ++ [("artifacts", VObj [("x", VNull)])])%list.

(** An asset manifest. *)
Definition asset_manifest (v : string) : value :=
  VObj [("version", VStr v); ("files", VObj [])].

(** A manifest whose [version] is an object with an own [toString]. *)
Definition unprintable_version_manifest : value :=
  VObj [("version", VObj [("toString", VNum "1")]); ("artifacts", VObj [])].

(** A manifest with a property whose value is [undefined]. *)
Definition undefined_runtime_manifest : list (string * value) :=
  [("artifacts", VObj []); ("runtime", VUndef)].

Definition stack_type : string := "aws:cloudformation:stack".
Definition tags_type : string := "aws:cdk:stack-tags".

End Concrete.

(** ** Shapes of documents the statements speak of *)

Module Shape.

Import Manifest.

(** [v.k] when reading cannot throw. *)
Definition field (v : value) (k : string) : value :=
  match v with
  | VObj ps => lookup k ps
  | _ => VUndef
  end.

Definition is_undef (v : value) : bool :=
  match v with
  | VUndef => true
  | _ => false
  end.

(** The members [Object.values] enumerates, and the items a [for ... of]
    loop visits, where they can be objects. *)
Definition members (c : value) : list value :=
  match c with
  | VObj ps => map snd ps
  | VArr l => l
  | _ => []
  end.

Definition items (c : value) : list value :=
  match c with
  | VArr l => l
  | _ => []
  end.

(** The artifact named [a], and the metadata entries it lists under
    [m]. *)
Definition artifact_at (d : value) (a : string) : value :=
  field (field d "artifacts") a.

Definition entries_at (d : value) (a m : string) : list value :=
  items (field (field (artifact_at d a) "metadata") m).

(** What the arrow function of [patchStackTags] returns on [t]. *)
Definition canonical_tag (t : value) : value :=
  VObj [("key", field t "Key"); ("value", field t "Value")].

(** What the arrow function returns on an element with neither
    capitalized field. *)
Definition blank_tag : value := VObj [("key", VUndef); ("value", VUndef)].

(** A payload element with neither capitalized field. *)
Definition no_legacy_tag (t : value) : bool :=
  is_undef (field t "Key") && is_undef (field t "Value").

Definition no_legacy_entry (tags : string) (e : value) : bool :=
  negb (strict_eq_str (field e "type") tags)
  || forallb no_legacy_tag (items (field e "data")).

Definition no_legacy_artifact (cf tags : string) (a : value) : bool :=
  negb (strict_eq_str (field a "type") cf)
  || forallb (fun es => forallb (no_legacy_entry tags) (items es))
       (members (field a "metadata")).

(** No payload element that the normalizer reaches carries a [Key] or a
    [Value]. *)
Definition no_legacy (cf tags : string) (d : value) : bool :=
  forallb (no_legacy_artifact cf tags) (members (field d "artifacts")).

(** A call that returns rather than throws. *)
Definition completes {A : Type} (r : result A) : bool :=
  match r with
  | Ok _ => true
  | Throw _ => false
  end.

Definition nullish (v : value) : bool :=
  match v with
  | VUndef | VNull => true
  | _ => false
  end.

(** A payload the arrow function maps without a [TypeError]: a falsy
    value, which is skipped, or an array without [null]. *)
Definition mappable_payload (data : value) : bool :=
  negb (truthy data) ||
  match data with
  | VArr l => forallb (fun t => negb (nullish t)) l
  | _ => false
  end.

(** A metadata entry the inner loop passes: anything but [null], and if it
    is a stack-tags entry its payload is mappable. *)
Definition shaped_entry (tags : string) (e : value) : bool :=
  negb (nullish e)
  && (negb (strict_eq_str (field e "type") tags) || mappable_payload (field e "data")).

(** A list of metadata entries the [for ... of] loop passes: an array of
    shaped entries, or a string. *)
Definition shaped_entries (tags : string) (es : value) : bool :=
  match es with
  | VArr l => forallb (shaped_entry tags) l
  | VStr _ => true
  | _ => false
  end.

(** An artifact the outer loop passes: anything but [null], and if it is
    a cloud-stack artifact every member of its [metadata] is a shaped list
    of entries. *)
Definition shaped_artifact (cf tags : string) (a : value) : bool :=
  negb (nullish a)
  && (negb (strict_eq_str (field a "type") cf)
      || forallb (shaped_entries tags) (members (field a "metadata"))).

(** A manifest on which [patchStackTags] meets no [TypeError]. *)
Definition shaped (cf tags : string) (d : value) : bool :=
  negb (nullish d)
  && forallb (shaped_artifact cf tags) (members (field d "artifacts")).

(** The manifest has no [artifacts] property. *)
Definition artifacts_absent (d : value) : bool :=
  is_undef (field d "artifacts").

(** No cloud-stack artifact has a [metadata] property. *)
Definition no_metadata (cf : string) (d : value) : bool :=
  forallb (fun a => negb (strict_eq_str (field a "type") cf)
                    || is_undef (field a "metadata"))
          (members (field d "artifacts")).

(** A payload that is missing, falsy or the empty array. *)
Definition empty_payload (data : value) : bool :=
  negb (truthy data) ||
  match data with
  | VArr [] => true
  | _ => false
  end.

(** A metadata entry that is not a stack-tags entry, or is one with an
    empty payload. *)
Definition entry_without_payload (tags : string) (e : value) : bool :=
  negb (strict_eq_str (field e "type") tags) || empty_payload (field e "data").

(** An artifact that is not a cloud-stack artifact, or is one whose
    stack-tags entries all have an empty payload. *)
Definition artifact_without_payload (cf tags : string) (a : value) : bool :=
  negb (strict_eq_str (field a "type") cf)
  || forallb (fun es => forallb (entry_without_payload tags) (items es))
       (members (field a "metadata")).

(** Every stack-tags entry of every cloud-stack artifact has an empty
    payload. *)
Definition no_payload (cf tags : string) (d : value) : bool :=
  forallb (artifact_without_payload cf tags) (members (field d "artifacts")).

(** A structurally sparse manifest: no artifacts, or cloud-stack
    artifacts without metadata, or stack-tags entries without payload. *)
Definition sparse (cf tags : string) (d : value) : bool :=
  artifacts_absent d || no_metadata cf d || no_payload cf tags d.

(** The laws of a three-way comparison that decides a strict total
    order. *)
Record order_laws {A : Type} (cmp : A -> A -> comparison) : Prop := {
  cmp_eq : forall a b, cmp a b = Eq <-> a = b;
  cmp_opp : forall a b, cmp b a = CompOpp (cmp a b);
  cmp_trans : forall a b c, cmp a b = Gt -> cmp b c = Gt -> cmp a c = Gt }.

(** [s] occurs in [msg]. *)
Definition occurs_in (s msg : string) : Prop :=
  exists pre post, msg = pre ++ s ++ post.

(** The options [_validate] passes to the validator. *)
Definition strict_options : ValidatorOptions :=
  {| nestedErrors := true; allowUnknownAttributes := false |}.

(** The validator call [_validate] issues in environment [E] for the
    wrapper property [kind] and the document [doc]. *)
Definition call_for (E : Env) (kind : string) (doc : value) : ValidatorCall E :=
  {| call_instance := VObj [(kind, doc)];
     call_schema := schema E;
     call_options := strict_options |}.

(** The world after one more validator call. *)
Definition after_call {E : Env} (w : World E) (c : ValidatorCall E) : World E :=
  {| files := files w;
     write_refused := write_refused w;
     validator_calls := c :: validator_calls w |}.

End Shape.

Import Manifest Concrete Shape.

(** ** Lists, property lists and the loops *)

Lemma mapM_id {A : Type} (f : A -> result A) (l : list A) :
  Forall (fun x => f x = Ok x) l -> mapM f l = Ok l.
Proof.
  induction 1 as [|x l Hx _ IH]; simpl; [reflexivity|].
  rewrite Hx; simpl. rewrite IH; reflexivity.
Qed.

Lemma mapM_props_id (body : value -> result value) (ps : list (string * value)) :
  Forall (fun kv => body (snd kv) = Ok (snd kv)) ps ->
  mapM (fun kv => v' <- body (snd kv) ;; Ok (fst kv, v')) ps = Ok ps.
Proof.
  intros H. apply mapM_id.
  eapply Forall_impl; [|exact H].
  intros [k v] Hkv; simpl in *. rewrite Hkv; reflexivity.
Qed.

Lemma has_key_false_lookup k ps : has_key k ps = false -> lookup k ps = VUndef.
Proof.
  induction ps as [|[k' v] ps IH]; simpl; [reflexivity|].
  destruct (String.eqb k k'); simpl; [discriminate|exact IH].
Qed.

Lemma lookup_has_key k ps : lookup k ps <> VUndef -> has_key k ps = true.
Proof.
  intros H. destruct (has_key k ps) eqn:Hk; [reflexivity|].
  elim H. apply has_key_false_lookup; assumption.
Qed.

Lemma truthy_has_key k ps : truthy (lookup k ps) = true -> has_key k ps = true.
Proof.
  intros H. apply lookup_has_key. intros Hu. rewrite Hu in H. discriminate.
Qed.

Lemma assign_same k ps : has_key k ps = true -> assign k (lookup k ps) ps = ps.
Proof.
  induction ps as [|[k' v] ps IH]; simpl; [discriminate|].
  destruct (String.eqb k k'); simpl; [reflexivity|].
  intros H. rewrite IH by assumption. reflexivity.
Qed.

(** ** The normalizer on sparse documents *)

Lemma Forall_chars (body : value -> result value) (s : string) :
  (forall c, body (VStr c) = Ok (VStr c)) ->
  Forall (fun x => body x = Ok x) (chars s).
Proof.
  intros H. induction s as [|c s IH]; simpl; constructor; [apply H|exact IH].
Qed.

Lemma Forall_map_snd {A : Type} (P : value -> Prop) (ps : list (A * value)) :
  Forall P (map snd ps) -> Forall (fun kv => P (snd kv)) ps.
Proof.
  induction ps as [|kv ps IH]; simpl; intros H; [constructor|].
  inversion H; subst. constructor; [assumption|apply IH; assumption].
Qed.

(** The loop over [Object.values] gives the container back as it was when
    the body gives every member back as it was. *)
Lemma for_values_id (body : value -> result value) c :
  (forall s, body (VStr s) = Ok (VStr s)) ->
  nullish c = false ->
  Forall (fun x => body x = Ok x) (members c) ->
  for_values body c = Ok c.
Proof.
  intros Hstr Hn HF. destruct c as [| |b|n|s|l|ps]; simpl in *; try discriminate;
    try reflexivity.
  - rewrite (mapM_id body (chars s) (Forall_chars body s Hstr)). reflexivity.
  - rewrite (mapM_id body l HF). reflexivity.
  - rewrite (mapM_props_id body ps (Forall_map_snd _ ps HF)). reflexivity.
Qed.

Lemma truthy_not_nullish v : truthy v = true -> nullish v = false.
Proof. destruct v; simpl; intros H; try reflexivity; discriminate. Qed.

Lemma patchEntry_without_payload tags e :
  shaped_entry tags e = true ->
  entry_without_payload tags e = true ->
  patchEntry tags e = Ok e.
Proof.
  unfold shaped_entry, entry_without_payload.
  destruct e as [| |b|n|s|l|fs]; simpl; try discriminate; try reflexivity.
  intros _. unfold patchEntry; simpl.
  destruct (strict_eq_str (lookup "type" fs) tags); simpl; [|reflexivity].
  unfold empty_payload.
  destruct (truthy (lookup "data" fs)) eqn:Ht; simpl; [|reflexivity].
  destruct (lookup "data" fs) as [| | | | |[|x l]|ps] eqn:Hd; try discriminate.
  intros _. simpl. rewrite <- Hd.
  rewrite assign_same; [reflexivity|].
  apply truthy_has_key. rewrite Hd. reflexivity.
Qed.

Lemma for_of_without_payload tags es :
  shaped_entries tags es = true ->
  forallb (entry_without_payload tags) (items es) = true ->
  for_of (patchEntry tags) es = Ok es.
Proof.
  destruct es as [| |b|n|s|l|ps]; simpl; try discriminate.
  - intros _ _.
    rewrite (mapM_id (patchEntry tags) (chars s)); [reflexivity|].
    apply Forall_chars. reflexivity.
  - intros Hs Hp. rewrite mapM_id; [reflexivity|].
    rewrite forallb_forall in Hs, Hp. apply Forall_forall. intros e He.
    apply patchEntry_without_payload; [apply Hs|apply Hp]; exact He.
Qed.

Lemma patchArtifact_without_payload cf tags a :
  shaped_artifact cf tags a = true ->
  artifact_without_payload cf tags a = true ->
  patchArtifact cf tags a = Ok a.
Proof.
  unfold shaped_artifact, artifact_without_payload.
  destruct a as [| |b|n|s|l|fs]; simpl; try discriminate; try reflexivity.
  unfold patchArtifact; simpl.
  destruct (strict_eq_str (lookup "type" fs) cf); simpl; [|reflexivity].
  intros Hs Hp. unfold or_else.
  destruct (truthy (lookup "metadata" fs)) eqn:Ht.
  - rewrite for_values_id.
    + simpl. rewrite assign_same; [reflexivity|]. apply truthy_has_key. exact Ht.
    + intros s. apply for_of_without_payload; reflexivity.
    + apply truthy_not_nullish. exact Ht.
    + rewrite forallb_forall in Hs, Hp. apply Forall_forall. intros es Hes.
      apply for_of_without_payload; [apply Hs|apply Hp]; exact Hes.
  - reflexivity.
Qed.

Lemma members_undef v : is_undef v = true -> members v = [].
Proof. destruct v; simpl; intros H; try discriminate; reflexivity. Qed.

Lemma no_metadata_payload cf tags d :
  no_metadata cf d = true -> no_payload cf tags d = true.
Proof.
  unfold no_metadata, no_payload. rewrite !forallb_forall. intros H a Ha.
  specialize (H a Ha). unfold artifact_without_payload.
  apply orb_true_iff in H. destruct H as [H|H].
  - rewrite H. reflexivity.
  - rewrite (members_undef _ H). apply orb_true_r.
Qed.

Lemma artifacts_absent_payload cf tags d :
  artifacts_absent d = true -> no_payload cf tags d = true.
Proof.
  unfold artifacts_absent, no_payload. intros H. rewrite (members_undef _ H). reflexivity.
Qed.

Lemma patchStackTags_no_payload cf tags d :
  shaped cf tags d = true ->
  no_payload cf tags d = true ->
  patchStackTags cf tags d = Ok d.
Proof.
  unfold shaped, no_payload.
  destruct d as [| |b|n|s|l|ps]; simpl; try discriminate; try reflexivity.
  intros Hs Hp. unfold patchStackTags; simpl. unfold or_else.
  destruct (truthy (lookup "artifacts" ps)) eqn:Ht.
  - rewrite for_values_id.
    + simpl. rewrite assign_same; [reflexivity|]. apply truthy_has_key. exact Ht.
    + intros s. reflexivity.
    + apply truthy_not_nullish. exact Ht.
    + rewrite forallb_forall in Hs, Hp. apply Forall_forall. intros a Ha.
      apply patchArtifact_without_payload; [apply Hs|apply Hp]; exact Ha.
  - reflexivity.
Qed.

(** C10, amended.  On a shaped manifest (none of the manifest, its
    artifacts and their metadata entries is [null], every member of a
    cloud-stack artifact's [metadata] can be iterated, and the [data] of a
    stack-tags entry is falsy or an array without [null]) that is
    structurally sparse (no [artifacts] property, or cloud-stack artifacts
    that carry no [metadata], or stack-tags entries whose [data] is
    missing, falsy or empty) [patchStackTags] raises no error and leaves
    the manifest as it is. *)
Theorem patchStackTags_sparse (cf tags : string) (d : value) :
  shaped cf tags d = true ->
  sparse cf tags d = true ->
  patchStackTags cf tags d = Ok d.
Proof.
  unfold sparse. intros Hs H. apply patchStackTags_no_payload; [exact Hs|].
  apply orb_true_iff in H. destruct H as [H|H]; [|exact H].
  apply orb_true_iff in H. destruct H as [H|H].
  - apply artifacts_absent_payload; assumption.
  - apply no_metadata_payload; assumption.
Qed.

(** ** What the normalizer does to a payload *)

Lemma mapM_nth {A B : Type} (f : A -> result B) (l : list A) (l' : list B) :
  mapM f l = Ok l' ->
  forall i x, nth_error l i = Some x ->
  exists y, nth_error l' i = Some y /\ f x = Ok y.
Proof.
  revert l'. induction l as [|a l IH]; simpl; intros l' H i x Hi.
  - destruct i; discriminate.
  - destruct (f a) as [b|] eqn:Hfa; simpl in H; [|discriminate].
    destruct (mapM f l) as [bs|] eqn:Hm; simpl in H; [|discriminate].
    injection H as <-. destruct i as [|i]; simpl in *.
    + injection Hi as <-. exists b. split; [reflexivity|assumption].
    + eapply IH; [reflexivity|eassumption].
Qed.

Lemma mapM_map {A B : Type} (f : A -> result B) (g : A -> B) (l : list A) (l' : list B) :
  (forall x y, In x l -> f x = Ok y -> y = g x) ->
  mapM f l = Ok l' -> l' = map g l.
Proof.
  revert l'. induction l as [|a l IH]; simpl; intros l' Hg H.
  - injection H as <-. reflexivity.
  - destruct (f a) as [b|] eqn:Hfa; simpl in H; [|discriminate].
    destruct (mapM f l) as [bs|] eqn:Hm; simpl in H; [|discriminate].
    injection H as <-. f_equal.
    + apply Hg; [left; reflexivity|assumption].
    + apply IH; [|reflexivity]. intros x y Hx. apply Hg. right; assumption.
Qed.

Lemma mapM_props_lookup (body : value -> result value) ps ps' k :
  mapM (fun kv => v' <- body (snd kv) ;; Ok (fst kv, v')) ps = Ok ps' ->
  has_key k ps = true ->
  body (lookup k ps) = Ok (lookup k ps') /\ has_key k ps' = true.
Proof.
  revert ps'. induction ps as [|[k0 v0] ps IH]; simpl; intros ps' H Hk; [discriminate|].
  destruct (body v0) as [v0'|] eqn:Hb; simpl in H; [|discriminate].
  destruct (mapM _ ps) as [qs|] eqn:Hm; simpl in H; [|discriminate].
  injection H as <-. simpl.
  destruct (String.eqb k k0); simpl in *.
  - split; [assumption|reflexivity].
  - apply IH; [reflexivity|assumption].
Qed.

Lemma lookup_assign_eq k v ps : lookup k (assign k v ps) = v.
Proof.
  induction ps as [|[k' v'] ps IH]; simpl.
  - rewrite String.eqb_refl. reflexivity.
  - destruct (String.eqb k k') eqn:Hk; simpl; rewrite Hk; [reflexivity|exact IH].
Qed.

Lemma lookup_assign_neq k k' v ps :
  String.eqb k' k = false -> lookup k' (assign k v ps) = lookup k' ps.
Proof.
  intros Hne. induction ps as [|[k0 v0] ps IH]; simpl.
  - rewrite Hne. reflexivity.
  - destruct (String.eqb k k0) eqn:Hk; simpl.
    + apply String.eqb_eq in Hk. subst k0. rewrite Hne. reflexivity.
    + rewrite IH. reflexivity.
Qed.

Lemma patchTag_canonical t y : patchTag t = Ok y -> y = canonical_tag t.
Proof.
  unfold patchTag, canonical_tag.
  destruct t; simpl; intros H; try discriminate; injection H as <-; reflexivity.
Qed.

Lemma field_not_undef_obj v k : field v k <> VUndef -> exists ps, v = VObj ps.
Proof.
  destruct v; simpl; intros H; try (elim H; reflexivity). eexists; reflexivity.
Qed.

Lemma strict_eq_str_not_undef v c : strict_eq_str v c = true -> v <> VUndef.
Proof. destruct v; simpl; intros H; try discriminate; intros Hu; discriminate. Qed.

Lemma patchEntry_payload tags e e' l :
  patchEntry tags e = Ok e' ->
  strict_eq_str (field e "type") tags = true ->
  field e "data" = VArr l ->
  e' = set e "data" (VArr (map canonical_tag l)).
Proof.
  intros H Hty Hd.
  destruct (field_not_undef_obj e "type" (strict_eq_str_not_undef _ _ Hty)) as [fs ->].
  simpl in *. unfold patchEntry in H; simpl in H. rewrite Hty, Hd in H. simpl in H.
  destruct (mapM patchTag l) as [l'|] eqn:Hm; simpl in H; [|discriminate].
  injection H as <-. f_equal. f_equal. f_equal.
  eapply mapM_map; [|exact Hm]. intros x y _. apply patchTag_canonical.
Qed.

Lemma nth_error_items_arr c i (x : value) :
  nth_error (items c) i = Some x -> exists l, c = VArr l.
Proof.
  destruct c; simpl; intros H; try (destruct i; discriminate). eexists; reflexivity.
Qed.

Lemma field_arr_has_key ps k l : lookup k ps = VArr l -> has_key k ps = true.
Proof. intros H. apply lookup_has_key. rewrite H. discriminate. Qed.

Lemma patchArtifact_entry cf tags art art' m i e :
  patchArtifact cf tags art = Ok art' ->
  strict_eq_str (field art "type") cf = true ->
  nth_error (items (field (field art "metadata") m)) i = Some e ->
  exists e', nth_error (items (field (field art' "metadata") m)) i = Some e'
             /\ patchEntry tags e = Ok e'.
Proof.
  intros H Hty Hi.
  destruct (field_not_undef_obj art "type" (strict_eq_str_not_undef _ _ Hty)) as [fs ->].
  simpl in *. unfold patchArtifact in H; simpl in H. rewrite Hty in H. simpl in H.
  destruct (nth_error_items_arr _ _ _ Hi) as [es Hes]. rewrite Hes in Hi. simpl in Hi.
  destruct (lookup "metadata" fs) as [| | | | |x|mds] eqn:Hmd; simpl in Hes; try discriminate.
  unfold or_else in H. simpl in H.
  destruct (mapM _ mds) as [mds'|] eqn:Hm; simpl in H; [|discriminate].
  injection H as <-. simpl. rewrite lookup_assign_eq. simpl.
  destruct (mapM_props_lookup _ _ _ m Hm (field_arr_has_key _ _ _ Hes)) as [Hb _].
  rewrite Hes in Hb. simpl in Hb.
  destruct (mapM (patchEntry tags) es) as [es'|] eqn:Hes'; simpl in Hb; [|discriminate].
  injection Hb as Hb. rewrite <- Hb. simpl.
  eapply mapM_nth; eassumption.
Qed.

Lemma patchStackTags_artifact cf tags d d' a :
  patchStackTags cf tags d = Ok d' ->
  artifact_at d a <> VUndef ->
  patchArtifact cf tags (artifact_at d a) = Ok (artifact_at d' a).
Proof.
  unfold artifact_at. intros H Ha.
  destruct (field_not_undef_obj _ _ Ha) as [arts Harts].
  assert (Hd : field d "artifacts" <> VUndef) by (rewrite Harts; discriminate).
  destruct (field_not_undef_obj _ _ Hd) as [ps ->].
  simpl in *. unfold patchStackTags in H; simpl in H. rewrite Harts in H.
  unfold or_else in H; simpl in H.
  destruct (mapM _ arts) as [arts'|] eqn:Hm; simpl in H; [|discriminate].
  injection H as <-. simpl. rewrite lookup_assign_eq. simpl.
  rewrite Harts in Ha. simpl in Ha.
  destruct (mapM_props_lookup _ _ _ a Hm (lookup_has_key _ _ Ha)) as [Hb _].
  rewrite Harts. exact Hb.
Qed.

(** ** The normalizer applied again *)

Lemma mapM_again {A : Type} (f : A -> result A) (P : A -> Prop) (l l1 : list A) :
  (forall x x1, In x l -> P x -> f x = Ok x1 -> f x1 = Ok x1) ->
  Forall P l ->
  mapM f l = Ok l1 -> mapM f l1 = Ok l1.
Proof.
  revert l1. induction l as [|a l IH]; simpl; intros l1 Hf HP H.
  - injection H as <-. reflexivity.
  - destruct (f a) as [b|] eqn:Hfa; simpl in H; [|discriminate].
    destruct (mapM f l) as [bs|] eqn:Hm; simpl in H; [|discriminate].
    injection H as <-. inversion HP as [|? ? Pa Pl]; subst. simpl.
    rewrite (Hf a b (or_introl eq_refl) Pa Hfa). simpl.
    rewrite (IH bs); [reflexivity| |assumption|reflexivity].
    intros x x1 Hx. apply Hf. right; assumption.
Qed.

Lemma mapM_props_again (body : value -> result value) (P : value -> Prop)
    (ps ps1 : list (string * value)) :
  (forall x x1, P x -> body x = Ok x1 -> body x1 = Ok x1) ->
  Forall P (map snd ps) ->
  mapM (fun kv => v' <- body (snd kv) ;; Ok (fst kv, v')) ps = Ok ps1 ->
  mapM (fun kv => v' <- body (snd kv) ;; Ok (fst kv, v')) ps1 = Ok ps1.
Proof.
  intros Hb HP. apply (mapM_again _ (fun kv : string * value => P (snd kv))).
  - intros [k x] [k1 x1] _ Px; simpl in *.
    destruct (body x) as [y|] eqn:Hy; simpl; [|discriminate].
    intros Heq. injection Heq as <- <-. rewrite (Hb x y Px Hy). reflexivity.
  - clear -HP. induction ps as [|kv ps IH]; simpl in *; [constructor|].
    inversion HP; subst. constructor; [assumption|apply IH; assumption].
Qed.

Lemma assign_assign k v w ps : assign k w (assign k v ps) = assign k w ps.
Proof.
  induction ps as [|[k' v'] ps IH]; simpl.
  - rewrite String.eqb_refl. reflexivity.
  - destruct (String.eqb k k') eqn:Hk; simpl; rewrite Hk; [reflexivity|].
    rewrite IH. reflexivity.
Qed.

Lemma canonical_no_legacy l :
  forallb no_legacy_tag l = true ->
  map canonical_tag l = map (fun _ => blank_tag) l.
Proof.
  intros H. apply map_ext_in. intros t Ht.
  rewrite forallb_forall in H. specialize (H t Ht).
  unfold no_legacy_tag in H. apply andb_true_iff in H. destruct H as [Hk Hv].
  unfold canonical_tag, blank_tag.
  destruct (field t "Key"); try discriminate.
  destruct (field t "Value"); try discriminate. reflexivity.
Qed.

Lemma mapM_patchTag_blank (l : list value) :
  mapM patchTag (map (fun _ => blank_tag) l) = Ok (map (fun _ => blank_tag) l).
Proof.
  induction l as [|t l IH]; simpl; [reflexivity|]. rewrite IH. reflexivity.
Qed.

Lemma patchEntry_again tags e e1 :
  no_legacy_entry tags e = true ->
  patchEntry tags e = Ok e1 -> patchEntry tags e1 = Ok e1.
Proof.
  intros Hn H.
  destruct e as [| | | | |x|fs]; try discriminate;
    try (unfold patchEntry in H; simpl in H; injection H as <-; reflexivity).
  unfold no_legacy_entry in Hn. simpl in Hn.
  unfold patchEntry in H; simpl in H.
  destruct (strict_eq_str (lookup "type" fs) tags) eqn:Hty; simpl in *.
  - destruct (truthy (lookup "data" fs)) eqn:Ht.
    + destruct (lookup "data" fs) as [| | | | |l|qs] eqn:Hd; simpl in H; try discriminate.
      destruct (mapM patchTag l) as [l1|] eqn:Hm; simpl in H; [|discriminate].
      injection H as <-.
      assert (Hl1 : l1 = map (fun _ => blank_tag) l).
      { rewrite <- canonical_no_legacy by exact Hn.
        eapply mapM_map; [|exact Hm]. intros x y _. apply patchTag_canonical. }
      unfold patchEntry; simpl.
      rewrite lookup_assign_neq by reflexivity. rewrite Hty. simpl.
      rewrite lookup_assign_eq. simpl.
      rewrite Hl1, mapM_patchTag_blank. simpl.
      rewrite assign_assign. reflexivity.
    + injection H as <-. unfold patchEntry; simpl. rewrite Hty. simpl. rewrite Ht. reflexivity.
  - injection H as <-. unfold patchEntry; simpl. rewrite Hty. reflexivity.
Qed.

Lemma for_of_again tags es es1 :
  forallb (no_legacy_entry tags) (items es) = true ->
  for_of (patchEntry tags) es = Ok es1 -> for_of (patchEntry tags) es1 = Ok es1.
Proof.
  intros Hn H. destruct es as [| | | |s|l|ps]; simpl in *; try discriminate.
  - destruct (mapM _ (chars s)) as [cs|] eqn:Hm; simpl in H; [|discriminate].
    injection H as <-. simpl. rewrite Hm. reflexivity.
  - destruct (mapM _ l) as [l1|] eqn:Hm; simpl in H; [|discriminate].
    injection H as <-. simpl.
    rewrite (mapM_again _ (fun e => no_legacy_entry tags e = true) l l1); [reflexivity| | |exact Hm].
    + intros x x1 _. apply patchEntry_again.
    + apply Forall_forall. rewrite forallb_forall in Hn. exact Hn.
Qed.

Lemma for_values_again (body : value -> result value) (P : value -> Prop) c c1 :
  (forall x x1, P x -> body x = Ok x1 -> body x1 = Ok x1) ->
  Forall P (members c) ->
  for_values body c = Ok c1 -> for_values body c1 = Ok c1.
Proof.
  intros Hb HP H. destruct c as [| |b|n|s|l|ps]; simpl in *; try discriminate.
  - injection H as <-. reflexivity.
  - injection H as <-. reflexivity.
  - destruct (mapM _ (chars s)) as [cs|] eqn:Hm; simpl in H; [|discriminate].
    injection H as <-. simpl. rewrite Hm. reflexivity.
  - destruct (mapM _ l) as [l1|] eqn:Hm; simpl in H; [|discriminate].
    injection H as <-. simpl.
    rewrite (mapM_again _ P l l1); [reflexivity| |assumption|exact Hm].
    intros x x1 _. apply Hb.
  - destruct (mapM _ ps) as [ps1|] eqn:Hm; simpl in H; [|discriminate].
    injection H as <-. simpl.
    rewrite (mapM_props_again _ P ps ps1); [reflexivity|assumption|assumption|exact Hm].
Qed.

Lemma for_values_truthy body c c1 :
  for_values body c = Ok c1 -> truthy c1 = truthy c.
Proof.
  destruct c; simpl; intros H; try discriminate;
    try (injection H as <-; reflexivity).
  - destruct (mapM _ _); simpl in H; [|discriminate]. injection H as <-. reflexivity.
  - destruct (mapM _ _); simpl in H; [|discriminate]. injection H as <-. reflexivity.
  - destruct (mapM _ _); simpl in H; [|discriminate]. injection H as <-. reflexivity.
Qed.

Lemma patchArtifact_again cf tags a a1 :
  no_legacy_artifact cf tags a = true ->
  patchArtifact cf tags a = Ok a1 -> patchArtifact cf tags a1 = Ok a1.
Proof.
  intros Hn H.
  destruct a as [| | | | |x|fs]; try discriminate;
    try (unfold patchArtifact in H; simpl in H; injection H as <-; reflexivity).
  unfold no_legacy_artifact in Hn. simpl in Hn.
  unfold patchArtifact in H; simpl in H.
  destruct (strict_eq_str (lookup "type" fs) cf) eqn:Hty; simpl in *.
  - unfold or_else in H.
    destruct (truthy (lookup "metadata" fs)) eqn:Ht.
    + destruct (for_values _ (lookup "metadata" fs)) as [md1|] eqn:Hfv; simpl in H; [|discriminate].
      injection H as <-.
      unfold patchArtifact; simpl.
      rewrite lookup_assign_neq by reflexivity. rewrite Hty. simpl.
      rewrite lookup_assign_eq. unfold or_else.
      rewrite (for_values_truthy _ _ _ Hfv), Ht.
      rewrite (for_values_again _ (fun es => forallb (no_legacy_entry tags) (items es) = true)
                 (lookup "metadata" fs) md1 (for_of_again tags)); [| |exact Hfv].
      * simpl. rewrite assign_assign. reflexivity.
      * apply Forall_forall. rewrite forallb_forall in Hn. exact Hn.
    + simpl in H. injection H as <-. unfold patchArtifact; simpl.
      rewrite Hty. simpl. unfold or_else. rewrite Ht. reflexivity.
  - injection H as <-. unfold patchArtifact; simpl. rewrite Hty. reflexivity.
Qed.

(** C3, amended.  On a document in which no payload element that the
    normalizer reaches carries a [Key] or a [Value], a second application
    changes nothing: if [patchStackTags] returns [d1] on it, it returns
    [d1] again on [d1]. *)
Theorem patchStackTags_twice (cf tags : string) (d d1 : value) :
  no_legacy cf tags d = true ->
  patchStackTags cf tags d = Ok d1 ->
  patchStackTags cf tags d1 = Ok d1.
Proof.
  intros Hn H. unfold no_legacy in Hn.
  destruct d as [| | | | |x|ps]; try discriminate;
    try (unfold patchStackTags in H; simpl in H; injection H as <-; reflexivity).
  simpl in Hn. unfold patchStackTags in H; simpl in H. unfold or_else in H.
  destruct (truthy (lookup "artifacts" ps)) eqn:Ht.
  - destruct (for_values _ (lookup "artifacts" ps)) as [arts1|] eqn:Hfv; simpl in H; [|discriminate].
    injection H as <-. unfold patchStackTags; simpl.
    rewrite lookup_assign_eq. unfold or_else.
    rewrite (for_values_truthy _ _ _ Hfv), Ht.
    rewrite (for_values_again _ (fun a => no_legacy_artifact cf tags a = true)
               (lookup "artifacts" ps) arts1 (patchArtifact_again cf tags)); [| |exact Hfv].
    + simpl. rewrite assign_assign. reflexivity.
    + apply Forall_forall. rewrite forallb_forall in Hn. exact Hn.
  - simpl in H. injection H as <-. unfold patchStackTags; simpl.
    unfold or_else. rewrite Ht. reflexivity.
Qed.

(** ** The load protocol *)

Lemma prefix_app (a b : string) : String.prefix a (a ++ b) = true.
Proof.
  induction a as [|c a IH]; simpl; [destruct b; reflexivity|].
  destruct (ascii_dec c c) as [_|Hne]; [exact IH|elim Hne; reflexivity].
Qed.

Lemma patchStackTags_get cf tags raw doc k :
  patchStackTags cf tags raw = Ok doc -> get doc k = Ok (field doc k).
Proof.
  unfold patchStackTags. intros H.
  destruct raw; simpl in H; try discriminate;
    try (injection H as <-; reflexivity).
  destruct (for_values _ _); simpl in H; [|discriminate].
  injection H as <-. destruct (truthy _); reflexivity.
Qed.

Section LoadFlow.

Variable E : Env.

(** What [_validate] does once both versions parse. *)
Lemma _validate_newer assmbly v w maxSupported actual :
  parseVersion E (version E) = Ok maxSupported ->
  parseVersion E v = Ok actual ->
  semver_gt E actual maxSupported = Ok true ->
  _validate E assmbly v w =
    (Throw (Error (VERSION_MISMATCH ++ ": Maximum schema version supported is "
                     ++ maxSupported ++ ", but found " ++ actual)), w).
Proof.
  intros Hmax Hact Hgt. unfold _validate, bindM, lift.
  rewrite Hmax, Hact, Hgt. reflexivity.
Qed.

Lemma _validate_not_newer kind doc v w maxSupported actual :
  parseVersion E (version E) = Ok maxSupported ->
  parseVersion E v = Ok actual ->
  semver_gt E actual maxSupported = Ok false ->
  _validate E (VObj [(kind, doc)]) v w =
    match Validator_validate E (VObj [(kind, doc)]) (schema E) strict_options with
    | Ok r =>
        if valid r then (Ok tt, after_call w (call_for E kind doc))
        else (Throw (Error ("Invalid assembly manifest:" ++ newline ++ result_toString r)),
              after_call w (call_for E kind doc))
    | Throw e => (Throw e, after_call w (call_for E kind doc))
    end.
Proof.
  intros Hmax Hact Hgt. unfold _validate, bindM, lift, validator_validate.
  rewrite Hmax, Hact, Hgt. simpl.
  fold strict_options.
  destruct (Validator_validate E _ _ _) as [r|e]; [|reflexivity].
  destruct (valid r); reflexivity.
Qed.

Lemma parseVersion_throws v s e :
  to_string v = Ok s ->
  parseVersion E v = Throw e ->
  e = Error ("Invalid semver string: " ++ dquote ++ s ++ dquote).
Proof.
  unfold parseVersion, throw_invalid_semver. intros Hs. rewrite Hs. simpl.
  destruct (semver_valid E v) as [ver|].
  - destruct (String.eqb ver ""); intros H; [injection H as <-; reflexivity|discriminate].
  - intros H. injection H as <-. reflexivity.
Qed.

Lemma parseVersion_invalid v :
  semver_valid E v = None ->
  parseVersion E v = throw_invalid_semver v.
Proof. unfold parseVersion. intros ->. reflexivity. Qed.

Lemma completes_ok {A : Type} (r : result A) : completes r = true -> exists a, r = Ok a.
Proof. destruct r as [a|e]; [exists a; reflexivity|discriminate]. Qed.

Lemma _validate_invalid assmbly v w :
  semver_valid E v = None ->
  completes (to_string (version E)) = true ->
  completes (to_string v) = true ->
  exists u, _validate E assmbly v w =
              (Throw (Error ("Invalid semver string: " ++ dquote ++ u ++ dquote)), w).
Proof.
  intros Hv Hc Hp.
  destruct (completes_ok _ Hc) as [c Hcs]. destruct (completes_ok _ Hp) as [sv Hsv].
  unfold _validate, bindM, lift.
  destruct (parseVersion E (version E)) as [m|e] eqn:Hmax.
  - exists sv. rewrite (parseVersion_invalid v Hv). unfold throw_invalid_semver.
    rewrite Hsv. reflexivity.
  - exists c. rewrite (parseVersion_throws _ _ _ Hcs Hmax). reflexivity.
Qed.

(** [load] up to the call of [_validate]. *)
Lemma load_to_validate p w t raw doc :
  files w p = Some t ->
  JSON_parse E t = Some raw ->
  patchStackTags (AWS_CLOUDFORMATION_STACK E) (STACK_TAGS E) raw = Ok doc ->
  load E p w =
    match _validate E (VObj [("manifest", doc)]) (field doc "version") w with
    | (Ok _, w') => (Ok doc, w')
    | (Throw e, w') => (Throw e, w')
    end.
Proof.
  intros Hf Hp Hn. unfold load, bindM, readFileSync, parse, lift.
  rewrite Hf. unfold ret. rewrite Hp, Hn.
  rewrite (patchStackTags_get _ _ _ _ "version" Hn).
  destruct (_validate E _ _ w) as [[u|e] w']; reflexivity.
Qed.

(** [loadAssetManifest] up to the call of [_validate]. *)
Lemma loadAssetManifest_to_validate p w t raw v :
  files w p = Some t ->
  JSON_parse E t = Some raw ->
  get raw "version" = Ok v ->
  loadAssetManifest E p w =
    match _validate E (VObj [("assets", raw)]) v w with
    | (Ok _, w') => (Ok raw, w')
    | (Throw e, w') => (Throw e, w')
    end.
Proof.
  intros Hf Hp Hv. unfold loadAssetManifest, bindM, readFileSync, parse, lift.
  rewrite Hf. unfold ret. rewrite Hp, Hv.
  destruct (_validate E _ _ w) as [[u|e] w']; reflexivity.
Qed.

End LoadFlow.

Lemma patchStackTags_keeps cf tags raw doc k :
  String.eqb k "artifacts" = false ->
  patchStackTags cf tags raw = Ok doc -> field doc k = field raw k.
Proof.
  unfold patchStackTags. intros Hk H.
  destruct raw; simpl in H; try discriminate;
    try (injection H as <-; reflexivity).
  destruct (for_values _ _); simpl in H; [|discriminate].
  injection H as <-. destruct (truthy _); simpl; [|reflexivity].
  apply lookup_assign_neq. exact Hk.
Qed.

Lemma append_assoc (a b c : string) : (a ++ b) ++ c = a ++ b ++ c.
Proof. induction a as [|x a IH]; simpl; [reflexivity|rewrite IH; reflexivity]. Qed.

Lemma occurs_in_error_lines e es i :
  In e es -> occurs_in (error_toString e) (error_lines i es).
Proof.
  revert i. induction es as [|e0 es IH]; simpl; intros i Hin; [contradiction|].
  destruct Hin as [->|Hin].
  - exists (NilEmpty.string_of_uint (Nat.to_uint i) ++ ": "), (newline ++ error_lines (S i) es).
    rewrite !append_assoc. reflexivity.
  - destruct (IH (S i) Hin) as [pre [post Heq]].
    exists (NilEmpty.string_of_uint (Nat.to_uint i) ++ ": " ++ error_toString e0 ++ newline ++ pre),
           post.
    rewrite Heq. rewrite !append_assoc. reflexivity.
Qed.

Lemma occurs_in_app_r s pre msg : occurs_in s msg -> occurs_in s (pre ++ msg).
Proof.
  intros [a [b ->]]. exists (pre ++ a), b. rewrite !append_assoc. reflexivity.
Qed.

(** ** The closed grammar *)

Lemma undeclared_reports path properties fields k :
  has_key k fields = true ->
  Jsonschema.declared k properties = false ->
  In (Jsonschema.additional_error path k) (Jsonschema.undeclared path properties fields).
Proof.
  intros Hk Hd. induction fields as [|[k0 v0] fields IH]; simpl in *; [discriminate|].
  destruct (String.eqb k k0) eqn:Heq; simpl in Hk.
  - apply String.eqb_eq in Heq. subst k0. rewrite Hd. left; reflexivity.
  - destruct (Jsonschema.declared k0 properties); [|right]; apply IH; assumption.
Qed.

Lemma check_closed_object path properties required fields k :
  has_key k fields = true ->
  Jsonschema.declared k properties = false ->
  In (Jsonschema.additional_error path k)
     (Jsonschema.check (Jsonschema.Object properties required true) path (VObj fields)).
Proof.
  intros Hk Hd. simpl. apply in_or_app. right. apply in_or_app. left.
  apply undeclared_reports; assumption.
Qed.

Lemma valid_false_of_error (r : ValidatorResult) e : In e (errors r) -> valid r = false.
Proof. unfold valid. destruct (errors r); [contradiction|reflexivity]. Qed.

(** ** load and loadAssetManifest under the version rule *)

(** C1, amended.  Take a file whose text parses to a document on which
    the normalizer completes, and let both the current version and the
    version field of the document be valid.  When the document's version
    is greater than the current one, [load] throws an error whose message
    begins with [VERSION_MISMATCH]; when it is not greater and the
    validator accepts the normalized document, [load] returns the
    normalized document. *)
Theorem load_version_rule (E : Env) (p : string) (w : World E) (t : text E)
    (raw doc : value) (maxSupported actual : string) :
  files w p = Some t ->
  JSON_parse E t = Some raw ->
  patchStackTags (AWS_CLOUDFORMATION_STACK E) (STACK_TAGS E) raw = Ok doc ->
  parseVersion E (version E) = Ok maxSupported ->
  parseVersion E (field raw "version") = Ok actual ->
  (semver_gt E actual maxSupported = Ok true ->
   exists msg, fst (load E p w) = Throw (Error msg)
               /\ String.prefix VERSION_MISMATCH msg = true)
  /\ (semver_gt E actual maxSupported = Ok false ->
      forall r,
        Validator_validate E (VObj [("manifest", doc)]) (schema E) strict_options = Ok r ->
        valid r = true ->
        fst (load E p w) = Ok doc).
Proof.
  intros Hf Hp Hn Hmax Hact.
  rewrite <- (patchStackTags_keeps _ _ _ _ "version" eq_refl Hn) in Hact.
  split.
  - intros Hgt. eexists. split.
    + rewrite (load_to_validate E p w t raw doc Hf Hp Hn).
      rewrite (_validate_newer E _ _ w _ _ Hmax Hact Hgt). reflexivity.
    + apply prefix_app.
  - intros Hgt r Hr Hv.
    rewrite (load_to_validate E p w t raw doc Hf Hp Hn).
    rewrite (_validate_not_newer E _ _ _ w _ _ Hmax Hact Hgt).
    rewrite Hr, Hv. reflexivity.
Qed.

(** C2, amended.  Take a file whose text parses to a document on which
    the normalizer completes, and let the template literal be able to
    print both the current version and the document's [version] field
    (neither is an object with an own [toString], nor an array that holds
    one).  When the version comparator finds no valid version in the
    document's [version] field, [load] throws the [Invalid semver string]
    error, which is not the version-mismatch error, and the world is as
    before: the validator has not been called. *)
Theorem load_invalid_version (E : Env) (p : string) (w : World E) (t : text E)
    (raw doc : value) :
  files w p = Some t ->
  JSON_parse E t = Some raw ->
  patchStackTags (AWS_CLOUDFORMATION_STACK E) (STACK_TAGS E) raw = Ok doc ->
  semver_valid E (field raw "version") = None ->
  completes (to_string (version E)) = true ->
  completes (to_string (field raw "version")) = true ->
  exists msg, load E p w = (Throw (Error msg), w)
              /\ String.prefix "Invalid semver string: " msg = true
              /\ String.prefix VERSION_MISMATCH msg = false.
Proof.
  intros Hf Hp Hn Hv Hc Hs.
  rewrite <- (patchStackTags_keeps _ _ _ _ "version" eq_refl Hn) in Hv, Hs.
  destruct (_validate_invalid E (VObj [("manifest", doc)]) _ w Hv Hc Hs) as [u Hu].
  eexists. split; [|split].
  - rewrite (load_to_validate E p w t raw doc Hf Hp Hn). rewrite Hu. reflexivity.
  - apply prefix_app.
  - reflexivity.
Qed.

(** C7.  A closed object grammar reports every property of the document
    that it does not declare, wherever the object sits, so the result is
    not valid; and when the validator returns a result that is not valid,
    [load] throws one error and returns no document: its message is
    [Invalid assembly manifest:] followed by the text of the result, in
    which every error of the result occurs.  The validator was called
    with [allowUnknownAttributes: false]. *)
Theorem validation_failure_reported :
  (forall properties required path fields k,
      has_key k fields = true ->
      Jsonschema.declared k properties = false ->
      let es := Jsonschema.check (Jsonschema.Object properties required true) path (VObj fields) in
      In (Jsonschema.additional_error path k) es /\ valid {| errors := es |} = false)
  /\ (forall (E : Env) (p : string) (w : World E) (t : text E) (raw doc : value)
             (maxSupported actual : string) (r : ValidatorResult),
      files w p = Some t ->
      JSON_parse E t = Some raw ->
      patchStackTags (AWS_CLOUDFORMATION_STACK E) (STACK_TAGS E) raw = Ok doc ->
      parseVersion E (version E) = Ok maxSupported ->
      parseVersion E (field raw "version") = Ok actual ->
      semver_gt E actual maxSupported = Ok false ->
      Validator_validate E (VObj [("manifest", doc)]) (schema E) strict_options = Ok r ->
      valid r = false ->
      exists msg,
        load E p w = (Throw (Error msg), after_call w (call_for E "manifest" doc))
        /\ msg = "Invalid assembly manifest:" ++ newline ++ result_toString r
        /\ (forall e, In e (errors r) -> occurs_in (error_toString e) msg)
        /\ allowUnknownAttributes (call_options (call_for E "manifest" doc)) = false).
Proof.
  split.
  - intros properties required path fields k Hk Hd es.
    assert (Hin : In (Jsonschema.additional_error path k) es)
      by (apply check_closed_object; assumption).
    split; [exact Hin|]. eapply valid_false_of_error. exact Hin.
  - intros E p w t raw doc maxSupported actual r Hf Hp Hn Hmax Hact Hgt Hr Hv.
    rewrite <- (patchStackTags_keeps _ _ _ _ "version" eq_refl Hn) in Hact.
    eexists. split; [|split; [reflexivity|split]].
    + rewrite (load_to_validate E p w t raw doc Hf Hp Hn).
      rewrite (_validate_not_newer E _ _ _ w _ _ Hmax Hact Hgt).
      rewrite Hr, Hv. reflexivity.
    + intros e He. apply occurs_in_app_r. apply occurs_in_app_r.
      apply occurs_in_error_lines. exact He.
    + reflexivity.
Qed.

(** C8, amended.  [loadAssetManifest] reads the same [version] field and
    applies the same version rule as [load]: a version greater than the
    current one gives an error that begins with [VERSION_MISMATCH].
    Otherwise it returns the parsed document as it is, without the
    rewrite of [patchStackTags], once the validator accepts it.  The one
    validator call it makes is on the document wrapped as
    [{ assets: raw }], against [Manifest.schema], the same schema [load]
    passes for [{ manifest: raw }]. *)
Theorem loadAssetManifest_flow (E : Env) (p : string) (w : World E) (t : text E)
    (raw v : value) (maxSupported actual : string) :
  files w p = Some t ->
  JSON_parse E t = Some raw ->
  get raw "version" = Ok v ->
  parseVersion E (version E) = Ok maxSupported ->
  parseVersion E v = Ok actual ->
  (semver_gt E actual maxSupported = Ok true ->
   exists msg, loadAssetManifest E p w = (Throw (Error msg), w)
               /\ String.prefix VERSION_MISMATCH msg = true)
  /\ (semver_gt E actual maxSupported = Ok false ->
      forall r,
        Validator_validate E (VObj [("assets", raw)]) (schema E) strict_options = Ok r ->
        valid r = true ->
        loadAssetManifest E p w = (Ok raw, after_call w (call_for E "assets" raw)))
  /\ call_schema (call_for E "assets" raw) = call_schema (call_for E "manifest" raw).
Proof.
  intros Hf Hp Hv Hmax Hact. split; [|split].
  - intros Hgt. eexists. split.
    + rewrite (loadAssetManifest_to_validate E p w t raw v Hf Hp Hv).
      rewrite (_validate_newer E _ _ w _ _ Hmax Hact Hgt). reflexivity.
    + apply prefix_app.
  - intros Hgt r Hr Hok.
    rewrite (loadAssetManifest_to_validate E p w t raw v Hf Hp Hv).
    rewrite (_validate_not_newer E _ _ _ w _ _ Hmax Hact Hgt).
    rewrite Hr, Hok. reflexivity.
  - reflexivity.
Qed.

(** ** save, and load after save *)

Lemma has_key_in k ps : has_key k ps = true <-> In k (map fst ps).
Proof.
  induction ps as [|[k' v] ps IH]; simpl.
  - split; [discriminate|contradiction].
  - rewrite orb_true_iff, IH, String.eqb_eq. split; intros [H|H]; auto.
Qed.

Lemma assign_fresh k v ps : ~ In k (map fst ps) -> assign k v ps = (ps ++ [(k, v)])%list.
Proof.
  induction ps as [|[k' v'] ps IH]; simpl; intros Hn; [reflexivity|].
  destruct (String.eqb k k') eqn:Hk.
  - apply String.eqb_eq in Hk. elim Hn. left. symmetry. exact Hk.
  - rewrite IH; [reflexivity|]. intros Hin. apply Hn. right. exact Hin.
Qed.

Lemma spread_fresh (ps acc : list (string * value)) :
  NoDup (map fst (acc ++ ps)%list) ->
  fold_left (fun a kv => assign (fst kv) (snd kv) a) ps acc = (acc ++ ps)%list.
Proof.
  revert acc. induction ps as [|[k v] ps IH]; simpl; intros acc Hnd.
  - rewrite app_nil_r. reflexivity.
  - assert (Hacc : ~ In k (map fst acc)).
    { rewrite map_app in Hnd. simpl in Hnd. apply NoDup_remove_2 in Hnd.
      intros Hin. apply Hnd. apply in_or_app. left. exact Hin. }
    rewrite (assign_fresh k v acc Hacc).
    rewrite IH; rewrite <- app_assoc; simpl; [reflexivity|exact Hnd].
Qed.

Lemma literal_spread_fresh k v ps :
  NoDup (map fst ps) -> has_key k ps = false ->
  literal_spread k v (VObj ps) = VObj ((k, v) :: ps).
Proof.
  intros Hnd Hk. unfold literal_spread. simpl.
  rewrite spread_fresh; [reflexivity|].
  simpl. constructor; [|exact Hnd].
  intros Hin. apply has_key_in in Hin. rewrite Hin in Hk. discriminate.
Qed.

Lemma patchStackTags_cons cf tags k v ps ps' :
  String.eqb "artifacts" k = false ->
  patchStackTags cf tags (VObj ps) = Ok (VObj ps') ->
  patchStackTags cf tags (VObj ((k, v) :: ps)) = Ok (VObj ((k, v) :: ps')).
Proof.
  unfold patchStackTags, get. cbn [lookup bind]. intros Hk. rewrite Hk.
  destruct (for_values _ _) as [arts'|]; cbn [bind]; [|discriminate].
  destruct (truthy (lookup "artifacts" ps)); cbn [set assign].
  - rewrite Hk. intros H. injection H as <-. reflexivity.
  - intros H. injection H as <-. reflexivity.
Qed.

Lemma has_key_not_in k ps : ~ In k (map fst ps) -> has_key k ps = false.
Proof.
  intros Hn. destruct (has_key k ps) eqn:Hk; [|reflexivity].
  elim Hn. apply has_key_in. exact Hk.
Qed.

Lemma lookup_spread k (ps acc : list (string * value)) :
  NoDup (map fst ps) ->
  lookup k (fold_left (fun a kv => assign (fst kv) (snd kv) a) ps acc)
  = if has_key k ps then lookup k ps else lookup k acc.
Proof.
  revert acc. induction ps as [|[k0 v0] ps IH]; intros acc Hnd; [reflexivity|].
  inversion Hnd as [|? ? Hnotin Hnd']; subst.
  cbn [fold_left fst snd has_key lookup]. rewrite (IH _ Hnd').
  destruct (String.eqb k k0) eqn:Hk.
  - apply String.eqb_eq in Hk. subst k0.
    rewrite (has_key_not_in _ _ Hnotin). cbn [orb]. apply lookup_assign_eq.
  - cbn [orb]. destruct (has_key k ps); [reflexivity|].
    apply lookup_assign_neq. exact Hk.
Qed.

(** The [version] that [save] and [saveAssetManifest] write: the current
    one only when the caller's object has none of its own. *)
Lemma literal_spread_version v0 ps :
  NoDup (map fst ps) ->
  field (literal_spread "version" v0 (VObj ps)) "version"
  = if has_key "version" ps then lookup "version" ps else v0.
Proof.
  intros Hnd. unfold literal_spread, field. cbn [own_props].
  rewrite (lookup_spread "version" ps _ Hnd). reflexivity.
Qed.

(** C5 at a manifest that already carries a [version]: the file [save]
    writes holds the caller's 0.0.1, not the current version 10.0.0. *)
Theorem save_keeps_supplied_version :
  files (snd (save E10 (plain_manifest "0.0.1") "manifest.json" (world E10 [])))
        "manifest.json"
  = Some (JSON_stringify E10 (plain_manifest "0.0.1"))
  /\ JSON_parse E10 (JSON_stringify E10 (plain_manifest "0.0.1"))
     = Some (plain_manifest "0.0.1")
  /\ version E10 = VStr "10.0.0"
  /\ files (snd (save E10 (plain_manifest "0.0.1") "manifest.json" (world E10 [])))
           "manifest.json"
     <> Some (JSON_stringify E10 (plain_manifest "10.0.0")).
Proof.
  repeat split; try reflexivity.
  intros H. vm_compute in H. discriminate.
Qed.

(** C6, amended.  Let [d] be an object, with distinct property names and
    without a [version] property of its own, such that the file system
    accepts the write, the text [save] writes parses back to what was
    written, the current version is valid and not greater than itself,
    the normalizer completes on [d], and the validator accepts the
    result.  Then [load] after [save] returns the normalized [d] with the
    current version put in front. *)
Theorem save_then_load (E : Env) (p : string) (w : World E)
    (ps ps' : list (string * value)) (current : string) (r : ValidatorResult) :
  NoDup (map fst ps) ->
  has_key "version" ps = false ->
  write_refused w p (JSON_stringify E (VObj (("version", version E) :: ps))) = None ->
  JSON_parse E (JSON_stringify E (VObj (("version", version E) :: ps)))
    = Some (VObj (("version", version E) :: ps)) ->
  patchStackTags (AWS_CLOUDFORMATION_STACK E) (STACK_TAGS E) (VObj ps) = Ok (VObj ps') ->
  parseVersion E (version E) = Ok current ->
  semver_gt E current current = Ok false ->
  Validator_validate E (VObj [("manifest", VObj (("version", version E) :: ps'))])
    (schema E) strict_options = Ok r ->
  valid r = true ->
  fst (seq (save E (VObj ps) p) (load E p) w) = Ok (VObj (("version", version E) :: ps')).
Proof.
  intros Hnd Hk Hw Hjson Hn Hcur Hgt Hr Hv.
  unfold seq, bindM, save. rewrite (literal_spread_fresh _ _ _ Hnd Hk).
  unfold writeFileSync. rewrite Hw.
  set (w1 := with_file E w p _).
  assert (Hf : files w1 p = Some (JSON_stringify E (VObj (("version", version E) :: ps)))).
  { unfold w1; simpl. rewrite String.eqb_refl. reflexivity. }
  rewrite (load_to_validate E p w1 _ _ _ Hf Hjson
             (patchStackTags_cons _ _ "version" (version E) ps ps' eq_refl Hn)).
  simpl field. rewrite (_validate_not_newer E _ _ _ w1 _ _ Hcur Hcur Hgt).
  rewrite Hr, Hv. reflexivity.
Qed.

(** ** The payload after the normalizer *)

(** C4, amended.  When [patchStackTags] completes, every stack-tags entry
    of a cloud-stack artifact whose [data] is an array comes back in its
    place with only [data] changed: each element [t], in order, has become
    [{ key: t.Key, value: t.Value }], which keeps no other field of [t].
    The payload [[{Key: env, Value: prod}]] becomes
    [[{key: env, value: prod}]]. *)
Theorem patchStackTags_payload :
  (forall (cf tags : string) (d d' : value) (a m : string) (i : nat) (e : value)
          (l : list value),
      patchStackTags cf tags d = Ok d' ->
      strict_eq_str (field (artifact_at d a) "type") cf = true ->
      nth_error (entries_at d a m) i = Some e ->
      strict_eq_str (field e "type") tags = true ->
      field e "data" = VArr l ->
      nth_error (entries_at d' a m) i = Some (set e "data" (VArr (map canonical_tag l))))
  /\ patchStackTags "aws:cloudformation:stack" "aws:cdk:stack-tags"
       (VObj (manifest_with [] legacy_payload))
     = Ok (VObj (manifest_with [] canonical_payload)).
Proof.
  split; [|reflexivity].
  intros cf tags d d' a m i e l Hp Hty Hi Hety Hd.
  assert (Ha : artifact_at d a <> VUndef).
  { intros Hu. rewrite Hu in Hty. discriminate. }
  pose proof (patchStackTags_artifact cf tags d d' a Hp Ha) as Hart.
  destruct (patchArtifact_entry cf tags _ _ m i e Hart Hty Hi) as [e' [Hi' He']].
  unfold entries_at. rewrite Hi'. f_equal.
  eapply patchEntry_payload; eassumption.
Qed.

(** ** The version comparator is a strict total order *)

Lemma N_order : order_laws N.compare.
Proof.
  constructor.
  - apply N.compare_eq_iff.
  - apply N.compare_antisym.
  - intros a b c. rewrite !N.compare_gt_iff. lia.
Qed.

Lemma ascii_order : order_laws Ascii.compare.
Proof.
  constructor.
  - intros a b. split; [apply Ascii.compare_eq_iff|].
    intros ->. unfold Ascii.compare. apply N.compare_refl.
  - intros a b. unfold Ascii.compare. apply N.compare_antisym.
  - intros a b c. unfold Ascii.compare. rewrite !N.compare_gt_iff. lia.
Qed.

Lemma string_compare_refl s : String.compare s s = Eq.
Proof.
  induction s as [|c s IH]; simpl; [reflexivity|].
  rewrite (proj2 (cmp_eq _ ascii_order c c) eq_refl). exact IH.
Qed.

Lemma string_order : order_laws String.compare.
Proof.
  constructor.
  - intros a b. split; [apply String.compare_eq_iff|intros ->; apply string_compare_refl].
  - intros a b. apply String.compare_antisym.
  - intros a. induction a as [|x a IH]; intros b c; destruct b as [|y b]; destruct c as [|z c];
      simpl; try discriminate; try reflexivity.
    destruct (Ascii.compare x y) eqn:Hxy; try discriminate;
      destruct (Ascii.compare y z) eqn:Hyz; try discriminate; intros H1 H2.
    + apply (cmp_eq _ ascii_order) in Hxy, Hyz. subst.
      rewrite (proj2 (cmp_eq _ ascii_order z z) eq_refl). eapply IH; eassumption.
    + apply (cmp_eq _ ascii_order) in Hxy. subst. rewrite Hyz. reflexivity.
    + apply (cmp_eq _ ascii_order) in Hyz. subst. rewrite Hxy. reflexivity.
    + rewrite (cmp_trans _ ascii_order x y z Hxy Hyz). reflexivity.
Qed.

Lemma identifier_order : order_laws Semver.compareIdentifiers.
Proof.
  constructor.
  - intros [n|s] [m|t]; simpl; split; intros H; try discriminate.
    + apply N.compare_eq in H. subst; reflexivity.
    + injection H as ->. apply N.compare_refl.
    + apply String.compare_eq_iff in H. subst; reflexivity.
    + injection H as ->. apply string_compare_refl.
  - intros [n|s] [m|t]; simpl; try reflexivity.
    + apply N.compare_antisym.
    + apply String.compare_antisym.
  - intros [n|s] [m|t] [k|u]; simpl; try discriminate; try reflexivity.
    + apply (cmp_trans _ N_order).
    + apply (cmp_trans _ string_order).
Qed.

Lemma fields_order : order_laws Semver.compareFields.
Proof.
  constructor.
  - intros p. induction p as [|a p IH]; intros [|b q]; simpl; split; intros H;
      try discriminate; try reflexivity.
    + destruct (Semver.compareIdentifiers a b) eqn:Hab; try discriminate.
      apply (cmp_eq _ identifier_order) in Hab. apply IH in H. subst; reflexivity.
    + injection H as -> ->.
      rewrite (proj2 (cmp_eq _ identifier_order b b) eq_refl). apply IH. reflexivity.
  - intros p. induction p as [|a p IH]; intros [|b q]; simpl; try reflexivity.
    rewrite (cmp_opp _ identifier_order a b).
    destruct (Semver.compareIdentifiers a b); simpl; [apply IH|reflexivity|reflexivity].
  - intros p. induction p as [|a p IH]; intros [|b q] [|c r]; simpl;
      try discriminate; try reflexivity.
    destruct (Semver.compareIdentifiers a b) eqn:Hab; try discriminate;
      destruct (Semver.compareIdentifiers b c) eqn:Hbc; try discriminate; intros H1 H2.
    + apply (cmp_eq _ identifier_order) in Hab, Hbc. subst.
      rewrite (proj2 (cmp_eq _ identifier_order c c) eq_refl). eapply IH; eassumption.
    + apply (cmp_eq _ identifier_order) in Hab. subst. rewrite Hbc. reflexivity.
    + apply (cmp_eq _ identifier_order) in Hbc. subst. rewrite Hab. reflexivity.
    + rewrite (cmp_trans _ identifier_order a b c Hab Hbc). reflexivity.
Qed.

Lemma pre_order : order_laws Semver.comparePre.
Proof.
  constructor.
  - intros [|a p] [|b q]; simpl; split; intros H; try discriminate; try reflexivity.
    + apply (cmp_eq _ fields_order (a :: p) (b :: q)). exact H.
    + apply (cmp_eq _ fields_order (a :: p) (b :: q)). exact H.
  - intros [|a p] [|b q]; try reflexivity.
    apply (cmp_opp _ fields_order (a :: p) (b :: q)).
  - intros [|a p] [|b q] [|c r]; try discriminate; try reflexivity.
    apply (cmp_trans _ fields_order (a :: p) (b :: q) (c :: r)).
Qed.

(** Two comparisons in sequence, the second one breaking the ties of the
    first, obey the laws when both do. *)
Lemma sequence_order {A B : Type} (f : A -> A -> comparison) (g : B -> B -> comparison) :
  order_laws f -> order_laws g ->
  order_laws (fun x y : A * B =>
                match f (fst x) (fst y) with
                | Eq => g (snd x) (snd y)
                | c => c
                end).
Proof.
  intros Hf Hg. constructor.
  - intros [a b] [a' b']; simpl. split.
    + destruct (f a a') eqn:Hfa; try discriminate. intros Hgb.
      apply (cmp_eq _ Hf) in Hfa. apply (cmp_eq _ Hg) in Hgb. subst; reflexivity.
    + intros H. injection H as -> ->.
      rewrite (proj2 (cmp_eq _ Hf a' a') eq_refl). apply (cmp_eq _ Hg). reflexivity.
  - intros [a b] [a' b']; simpl. rewrite (cmp_opp _ Hf a a').
    destruct (f a a'); simpl; [apply (cmp_opp _ Hg)|reflexivity|reflexivity].
  - intros [a b] [a' b'] [a'' b'']; simpl.
    destruct (f a a') eqn:H1; try discriminate;
      destruct (f a' a'') eqn:H2; try discriminate; intros G1 G2.
    + apply (cmp_eq _ Hf) in H1, H2. subst.
      rewrite (proj2 (cmp_eq _ Hf a'' a'') eq_refl). eapply (cmp_trans _ Hg); eassumption.
    + apply (cmp_eq _ Hf) in H1. subst. rewrite H2. reflexivity.
    + apply (cmp_eq _ Hf) in H2. subst. rewrite H1. reflexivity.
    + rewrite (cmp_trans _ Hf a a' a'' H1 H2). reflexivity.
Qed.

Lemma compare_as_sequence (a b : Semver.version) :
  Semver.compare a b =
  (fun x y : N * (N * (N * list Semver.identifier)) =>
     match N.compare (fst x) (fst y) with
     | Eq =>
         (fun x y : N * (N * list Semver.identifier) =>
            match N.compare (fst x) (fst y) with
            | Eq =>
                (fun x y : N * list Semver.identifier =>
                   match N.compare (fst x) (fst y) with
                   | Eq => Semver.comparePre (snd x) (snd y)
                   | c => c
                   end) (snd x) (snd y)
            | c => c
            end) (snd x) (snd y)
     | c => c
     end)
    (Semver.major a, (Semver.minor a, (Semver.patch a, Semver.prerelease a)))
    (Semver.major b, (Semver.minor b, (Semver.patch b, Semver.prerelease b))).
Proof.
  unfold Semver.compare, Semver.compareMain. simpl.
  destruct (N.compare (Semver.major a) (Semver.major b)),
           (N.compare (Semver.minor a) (Semver.minor b)),
           (N.compare (Semver.patch a) (Semver.patch b)); reflexivity.
Qed.

Lemma version_order : order_laws Semver.compare.
Proof.
  pose proof (sequence_order _ _ N_order
                (sequence_order _ _ N_order
                   (sequence_order _ _ N_order pre_order))) as H.
  constructor.
  - intros a b. rewrite compare_as_sequence. rewrite (cmp_eq _ H).
    destruct a, b; simpl. split; intros Heq; [injection Heq as -> -> -> ->|injection Heq as -> -> -> ->];
      reflexivity.
  - intros a b. rewrite !compare_as_sequence. apply (cmp_opp _ H).
  - intros a b c. rewrite !compare_as_sequence. apply (cmp_trans _ H).
Qed.

(** ** The comparison decides precedence *)

Lemma ascii_compare_lt c d :
  Ascii.compare c d = Lt <-> (nat_of_ascii c < nat_of_ascii d)%nat.
Proof.
  unfold Ascii.compare, nat_of_ascii. rewrite N.compare_lt_iff. lia.
Qed.

Lemma ascii_before_compare s t :
  Semver.ascii_before s t <-> String.compare s t = Lt.
Proof.
  split.
  - induction 1 as [c s|c d s t Hlt|c s t _ IH]; simpl.
    + reflexivity.
    + rewrite (proj2 (ascii_compare_lt c d) Hlt). reflexivity.
    + rewrite (proj2 (cmp_eq _ ascii_order c c) eq_refl). exact IH.
  - revert t. induction s as [|c s IH]; intros [|d t]; simpl; try discriminate.
    + intros _. constructor.
    + destruct (Ascii.compare c d) eqn:Hcd; try discriminate.
      * apply (cmp_eq _ ascii_order) in Hcd. subst. intros H. apply Semver.before_tail.
        apply IH. exact H.
      * intros _. apply Semver.before_head. apply ascii_compare_lt. exact Hcd.
Qed.

Lemma gt_iff_lt_swapped {A : Type} (cmp : A -> A -> comparison) (H : order_laws cmp) a b :
  cmp a b = Gt <-> cmp b a = Lt.
Proof.
  rewrite (cmp_opp _ H a b). destruct (cmp a b); simpl; split; intros E; try discriminate; reflexivity.
Qed.

Lemma identifier_later_compare a b :
  Semver.identifier_later a b <-> Semver.compareIdentifiers a b = Gt.
Proof.
  split.
  - intros [n m Hlt|s t Hb|s n]; simpl.
    + apply N.compare_gt_iff. exact Hlt.
    + apply (gt_iff_lt_swapped _ string_order). apply ascii_before_compare. exact Hb.
    + reflexivity.
  - destruct a as [n|s], b as [m|t]; simpl; intros H; try discriminate.
    + constructor. apply N.compare_gt_iff. exact H.
    + constructor.
    + constructor. apply ascii_before_compare. apply (gt_iff_lt_swapped _ string_order). exact H.
Qed.

Lemma fields_later_compare p q :
  Semver.fields_later p q <-> Semver.compareFields p q = Gt.
Proof.
  split.
  - induction 1 as [a p|a b p q Hab|a p q _ IH]; simpl.
    + reflexivity.
    + rewrite (proj1 (identifier_later_compare a b) Hab). reflexivity.
    + rewrite (proj2 (cmp_eq _ identifier_order a a) eq_refl). exact IH.
  - revert q. induction p as [|a p IH]; intros [|b q]; simpl; try discriminate.
    + intros _. constructor.
    + destruct (Semver.compareIdentifiers a b) eqn:Hab; try discriminate.
      * apply (cmp_eq _ identifier_order) in Hab. subst. intros H.
        apply Semver.later_rest. apply IH. exact H.
      * intros _. apply Semver.later_first. apply identifier_later_compare. exact Hab.
Qed.

Lemma tag_later_compare p q :
  Semver.tag_later p q <-> Semver.comparePre p q = Gt.
Proof.
  destruct p as [|a p], q as [|b q]; simpl.
  - split; [contradiction|discriminate].
  - split; [reflexivity|trivial].
  - split; [contradiction|discriminate].
  - apply (fields_later_compare (a :: p) (b :: q)).
Qed.

Lemma later_compare a b : Semver.later a b <-> Semver.compare a b = Gt.
Proof.
  unfold Semver.later, Semver.compare, Semver.compareMain.
  rewrite tag_later_compare.
  destruct (N.compare_spec (Semver.major a) (Semver.major b)) as [Hm|Hm|Hm].
  - destruct (N.compare_spec (Semver.minor a) (Semver.minor b)) as [Hn|Hn|Hn].
    + destruct (N.compare_spec (Semver.patch a) (Semver.patch b)) as [Hp|Hp|Hp].
      * split; [|intros H; right; right; right; auto].
        intros [H|[[_ H]|[[_ [_ H]]|[_ [_ [_ H]]]]]]; try lia. exact H.
      * split; [|discriminate].
        intros [H|[[_ H]|[[_ [_ H]]|[_ [_ [H _]]]]]]; lia.
      * split; [reflexivity|]. intros _. right; right; left. auto.
    + split; [|discriminate].
      intros [H|[[_ H]|[[_ [H _]]|[_ [H _]]]]]; lia.
    + split; [reflexivity|]. intros _. right; left. auto.
  - split; [|discriminate].
    intros [H|[[H _]|[[H _]|[H _]]]]; lia.
  - split; [reflexivity|]. intros _. left. exact Hm.
Qed.

(** C9.  [compareGreaterThan a b] holds exactly when [a] is a strictly
    later release than [b] under the precedence rules; it is irreflexive
    and transitive, and of two different versions one is greater than the
    other; 2.0.0 is greater than 1.9.9, 1.2.0 than 1.1.9, and 1.0.0 than
    1.0.0-beta. *)
Theorem compareGreaterThan_order :
  (forall a b, Semver.compareGreaterThan a b = true <-> Semver.later a b)
  /\ (forall a, Semver.compareGreaterThan a a = false)
  /\ (forall a b c, Semver.compareGreaterThan a b = true ->
                    Semver.compareGreaterThan b c = true ->
                    Semver.compareGreaterThan a c = true)
  /\ (forall a b, a <> b ->
                  Semver.compareGreaterThan a b = true \/ Semver.compareGreaterThan b a = true)
  /\ Semver.gt "2.0.0" "1.9.9" = Ok true
  /\ Semver.gt "1.2.0" "1.1.9" = Ok true
  /\ Semver.gt "1.0.0" "1.0.0-beta" = Ok true
  /\ Semver.gt "1.0.0-beta" "1.0.0" = Ok false.
Proof.
  assert (Hgt : forall a b, Semver.compareGreaterThan a b = true <-> Semver.compare a b = Gt).
  { intros a b. unfold Semver.compareGreaterThan.
    destruct (Semver.compare a b); split; intros H; try discriminate; reflexivity. }
  split; [|split; [|split; [|split]]].
  - intros a b. rewrite Hgt. symmetry. apply later_compare.
  - intros a. unfold Semver.compareGreaterThan.
    rewrite (proj2 (cmp_eq _ version_order a a) eq_refl). reflexivity.
  - intros a b c. rewrite !Hgt. apply (cmp_trans _ version_order).
  - intros a b Hne. rewrite !Hgt. rewrite (cmp_opp _ version_order a b).
    destruct (Semver.compare a b) eqn:Hab; simpl; auto.
    apply (cmp_eq _ version_order) in Hab. contradiction.
  - repeat split; reflexivity.
Qed.

(** ** The statements at concrete documents *)

(** C1 as stated fails: the document declares version 99.0.0, greater than
    the current 10.0.0, yet [load] stops in the normalizer with a
    [TypeError], which carries no version-mismatch message. *)
Lemma load_newer_version_type_error :
  parseVersion E10 (field (null_artifact_manifest [("version", VStr "99.0.0")]) "version")
    = Ok "99.0.0"
  /\ parseVersion E10 (version E10) = Ok "10.0.0"
  /\ semver_gt E10 "99.0.0" "10.0.0" = Ok true
  /\ fst (load E10 "manifest.json"
            (world E10 [("manifest.json",
                         Some (null_artifact_manifest [("version", VStr "99.0.0")]))]))
     = Throw TypeError
  /\ ~ (exists msg,
          fst (load E10 "manifest.json"
                 (world E10 [("manifest.json",
                              Some (null_artifact_manifest [("version", VStr "99.0.0")]))]))
          = Throw (Error msg)
          /\ String.prefix VERSION_MISMATCH msg = true).
Proof.
  repeat split; try reflexivity.
  intros [msg [H _]]. vm_compute in H. discriminate.
Qed.

(** With current version 10.0.0: a manifest of version 11.0.0 is refused
    with the marker, one of version 9.1.0 comes back normalized. *)
Lemma load_version_rule_witness :
  (exists msg,
      fst (load E10 "manifest.json" (world E10 [("manifest.json", Some (plain_manifest "11.0.0"))]))
      = Throw (Error msg)
      /\ String.prefix VERSION_MISMATCH msg = true)
  /\ fst (load E10 "manifest.json"
            (world E10 [("manifest.json",
                         Some (VObj (("version", VStr "9.1.0") :: manifest_with [] legacy_payload)))]))
     = Ok (VObj (("version", VStr "9.1.0") :: manifest_with [] canonical_payload)).
Proof.
  split.
  - apply (proj1 (load_version_rule E10 "manifest.json"
                    (world E10 [("manifest.json", Some (plain_manifest "11.0.0"))])
                    (Some (plain_manifest "11.0.0")) (plain_manifest "11.0.0")
                    (plain_manifest "11.0.0") "10.0.0" "11.0.0"
                    eq_refl eq_refl eq_refl eq_refl eq_refl)).
    reflexivity.
  - apply (proj2 (load_version_rule E10 "manifest.json"
                    (world E10 [("manifest.json",
                                 Some (VObj (("version", VStr "9.1.0")
                                             :: manifest_with [] legacy_payload)))])
                    (Some (VObj (("version", VStr "9.1.0") :: manifest_with [] legacy_payload)))
                    (VObj (("version", VStr "9.1.0") :: manifest_with [] legacy_payload))
                    (VObj (("version", VStr "9.1.0") :: manifest_with [] canonical_payload))
                    "10.0.0" "9.1.0"
                    eq_refl eq_refl eq_refl eq_refl eq_refl) eq_refl
                 {| errors := [] |}); reflexivity.
Defined.

(** C2 as stated fails.  A document without a [version] field and with a
    [null] artifact stops in the normalizer with a [TypeError]; and a
    document whose [version] is an object with an own [toString] passes the
    normalizer, is found invalid, and stops in the template literal of the
    error message with a [TypeError].  Neither gives the
    [Invalid semver string] error. *)
Lemma load_missing_version_type_error :
  field (null_artifact_manifest []) "version" = VUndef
  /\ semver_valid E10 (field (null_artifact_manifest []) "version") = None
  /\ fst (load E10 "manifest.json"
            (world E10 [("manifest.json", Some (null_artifact_manifest []))]))
     = Throw TypeError
  /\ ~ (exists msg,
          fst (load E10 "manifest.json"
                 (world E10 [("manifest.json", Some (null_artifact_manifest []))]))
          = Throw (Error msg)
          /\ String.prefix "Invalid semver string: " msg = true)
  /\ patchStackTags (AWS_CLOUDFORMATION_STACK E10) (STACK_TAGS E10)
       unprintable_version_manifest
     = Ok unprintable_version_manifest
  /\ semver_valid E10 (field unprintable_version_manifest "version") = None
  /\ load E10 "manifest.json"
       (world E10 [("manifest.json", Some unprintable_version_manifest)])
     = (Throw TypeError, world E10 [("manifest.json", Some unprintable_version_manifest)]).
Proof.
  repeat split; try reflexivity.
  intros [msg [H _]]. vm_compute in H. discriminate.
Qed.

(** A manifest without a [version] field. *)
Lemma load_invalid_version_witness :
  exists msg,
    load E10 "manifest.json" (world E10 [("manifest.json", Some (VObj [("artifacts", VObj [])]))])
    = (Throw (Error msg), world E10 [("manifest.json", Some (VObj [("artifacts", VObj [])]))])
    /\ String.prefix "Invalid semver string: " msg = true
    /\ String.prefix VERSION_MISMATCH msg = false.
Proof.
  apply (load_invalid_version E10 "manifest.json"
           (world E10 [("manifest.json", Some (VObj [("artifacts", VObj [])]))])
           (Some (VObj [("artifacts", VObj [])])) (VObj [("artifacts", VObj [])])
           (VObj [("artifacts", VObj [])]) eq_refl eq_refl eq_refl eq_refl eq_refl eq_refl).
Defined.

(** C3 as stated fails: on a legacy payload the second application is not
    a no-op, it erases the key and the value the first one produced. *)
Lemma patchStackTags_not_idempotent :
  patchStackTags stack_type tags_type (VObj (manifest_with [] legacy_payload))
    = Ok (VObj (manifest_with [] canonical_payload))
  /\ patchStackTags stack_type tags_type (VObj (manifest_with [] canonical_payload))
     = Ok (VObj (manifest_with [] blank_payload))
  /\ VObj (manifest_with [] blank_payload) <> VObj (manifest_with [] canonical_payload).
Proof. repeat split; try reflexivity. discriminate. Qed.

(** A payload that is already in lowercase: the first pass erases it,
    the second changes nothing more. *)
Lemma patchStackTags_twice_witness :
  no_legacy stack_type tags_type (VObj (manifest_with [] canonical_payload)) = true
  /\ patchStackTags stack_type tags_type (VObj (manifest_with [] canonical_payload))
     = Ok (VObj (manifest_with [] blank_payload))
  /\ patchStackTags stack_type tags_type (VObj (manifest_with [] blank_payload))
     = Ok (VObj (manifest_with [] blank_payload)).
Proof.
  split; [reflexivity|split; [reflexivity|]].
  apply (patchStackTags_twice stack_type tags_type
           (VObj (manifest_with [] canonical_payload))
           (VObj (manifest_with [] blank_payload)) eq_refl eq_refl).
Defined.

(** C4 as stated fails: a payload element with a third field [Note] comes
    back without it. *)
Lemma patchStackTags_drops_other_fields :
  patchStackTags stack_type tags_type (VObj (manifest_with [] annotated_payload))
    = Ok (VObj (manifest_with [] canonical_payload))
  /\ map (fun t => field t "Note") (items annotated_payload) = [VStr "x"]
  /\ map (fun t => field t "Note") (items canonical_payload) = [VUndef].
Proof. repeat split; reflexivity. Qed.

(** The entry of the spec example, read back from the normalized
    manifest. *)
Lemma patchStackTags_payload_witness :
  nth_error (entries_at (VObj (manifest_with [] canonical_payload)) "s" "/s") 0
  = Some (tags_entry canonical_payload).
Proof.
  apply (proj1 patchStackTags_payload stack_type tags_type
           (VObj (manifest_with [] legacy_payload))
           (VObj (manifest_with [] canonical_payload))
           "s" "/s" 0%nat (tags_entry legacy_payload)
           [VObj [("Key", VStr "env"); ("Value", VStr "prod")]]
           eq_refl eq_refl eq_refl eq_refl eq_refl).
Defined.

(** C6 as stated fails: none of the documents has a [version] of its own
    and all are accepted, yet what [load] returns after [save] is not the
    document plus the version.  A legacy payload comes back in lowercase,
    a payload that is already in lowercase comes back with its key and
    value erased, and a property whose value is [undefined] is not written
    at all. *)
Lemma save_then_load_rewrites_tags :
  fst (seq (save E10 (VObj (manifest_with [] legacy_payload)) "manifest.json")
           (load E10 "manifest.json") (world E10 []))
    = Ok (VObj (("version", VStr "10.0.0") :: manifest_with [] canonical_payload))
  /\ fst (seq (save E10 (VObj (manifest_with [] legacy_payload)) "manifest.json")
              (load E10 "manifest.json") (world E10 []))
     <> Ok (VObj (("version", VStr "10.0.0") :: manifest_with [] legacy_payload))
  /\ fst (seq (save E10 (VObj (manifest_with [] canonical_payload)) "manifest.json")
              (load E10 "manifest.json") (world E10 []))
     = Ok (VObj (("version", VStr "10.0.0") :: manifest_with [] blank_payload))
  /\ fst (seq (save E10 (VObj (manifest_with [] canonical_payload)) "manifest.json")
              (load E10 "manifest.json") (world E10 []))
     <> Ok (VObj (("version", VStr "10.0.0") :: manifest_with [] canonical_payload))
  /\ fst (seq (save E10 (VObj undefined_runtime_manifest) "manifest.json")
              (load E10 "manifest.json") (world E10 []))
     = Ok (VObj [("version", VStr "10.0.0"); ("artifacts", VObj [])])
  /\ fst (seq (save E10 (VObj undefined_runtime_manifest) "manifest.json")
              (load E10 "manifest.json") (world E10 []))
     <> Ok (VObj (("version", VStr "10.0.0") :: undefined_runtime_manifest)).
Proof.
  split; [reflexivity|split; [|split; [reflexivity|split; [|split; [reflexivity|]]]]].
  - intros H. vm_compute in H. discriminate.
  - intros H. vm_compute in H. discriminate.
  - intros H. vm_compute in H. discriminate.
Qed.

(** A manifest with no artifact, saved and loaded under 10.0.0. *)
Lemma save_then_load_witness :
  fst (seq (save E10 (VObj [("artifacts", VObj [])]) "manifest.json")
           (load E10 "manifest.json") (world E10 []))
  = Ok (VObj [("version", VStr "10.0.0"); ("artifacts", VObj [])]).
Proof.
  apply (save_then_load E10 "manifest.json" (world E10 [])
           [("artifacts", VObj [])] [("artifacts", VObj [])] "10.0.0" {| errors := [] |}).
  - repeat constructor. simpl. tauto.
  - reflexivity.
  - reflexivity.
  - reflexivity.
  - reflexivity.
  - reflexivity.
  - reflexivity.
  - reflexivity.
  - reflexivity.
Defined.

(** The scenario of the spec: the extra property is reported, and the
    message of [load] carries the report. *)
Lemma validation_failure_reported_witness :
  In (Jsonschema.additional_error "instance.manifest" "extra")
     (Jsonschema.check manifest_grammar "instance.manifest"
        (VObj [("version", VStr "10.0.0"); ("artifacts", VObj []); ("extra", VNum "1")]))
  /\ exists msg,
       load E10 "manifest.json"
         (world E10 [("manifest.json",
                      Some (VObj [("version", VStr "10.0.0"); ("artifacts", VObj []);
                                  ("extra", VNum "1")]))])
       = (Throw (Error msg),
          after_call
            (world E10 [("manifest.json",
                         Some (VObj [("version", VStr "10.0.0"); ("artifacts", VObj []);
                                     ("extra", VNum "1")]))])
            (call_for E10 "manifest"
               (VObj [("version", VStr "10.0.0"); ("artifacts", VObj []); ("extra", VNum "1")])))
       /\ occurs_in
            (error_toString (Jsonschema.additional_error "instance.manifest" "extra")) msg.
Proof.
  split.
  - apply (proj1 validation_failure_reported
             [("version", Jsonschema.OfType Jsonschema.TString);
              ("artifacts", Jsonschema.OfType Jsonschema.TObject)]
             ["version"] "instance.manifest"
             [("version", VStr "10.0.0"); ("artifacts", VObj []); ("extra", VNum "1")]
             "extra" eq_refl eq_refl).
  - destruct (proj2 validation_failure_reported E10 "manifest.json"
                (world E10 [("manifest.json",
                             Some (VObj [("version", VStr "10.0.0"); ("artifacts", VObj []);
                                         ("extra", VNum "1")]))])
                (Some (VObj [("version", VStr "10.0.0"); ("artifacts", VObj []);
                             ("extra", VNum "1")]))
                (VObj [("version", VStr "10.0.0"); ("artifacts", VObj []); ("extra", VNum "1")])
                (VObj [("version", VStr "10.0.0"); ("artifacts", VObj []); ("extra", VNum "1")])
                "10.0.0" "10.0.0"
                {| errors := [Jsonschema.additional_error "instance.manifest" "extra"] |}
                eq_refl eq_refl eq_refl eq_refl eq_refl eq_refl eq_refl eq_refl)
      as [msg [Hload [_ [Hall _]]]].
    exists msg. split; [exact Hload|].
    apply Hall. left. reflexivity.
Defined.

(** C8 as stated fails: the schema [loadAssetManifest] hands to the
    validator is the one [load] hands to it, the single
    [Manifest.schema]. *)
Lemma loadAssetManifest_same_schema :
  map call_schema
      (validator_calls
         (snd (loadAssetManifest E10 "assets.json"
                 (world E10 [("assets.json", Some (asset_manifest "10.0.0"))]))))
    = [assembly_grammar]
  /\ map call_schema
       (validator_calls
          (snd (load E10 "manifest.json"
                  (world E10 [("manifest.json", Some (plain_manifest "10.0.0"))]))))
     = [assembly_grammar]
  /\ ~ (forall ca cm,
          In ca (validator_calls
                   (snd (loadAssetManifest E10 "assets.json"
                           (world E10 [("assets.json", Some (asset_manifest "10.0.0"))])))) ->
          In cm (validator_calls
                   (snd (load E10 "manifest.json"
                           (world E10 [("manifest.json", Some (plain_manifest "10.0.0"))])))) ->
          call_schema ca <> call_schema cm).
Proof.
  split; [reflexivity|split; [reflexivity|]].
  intros H.
  apply (H (call_for E10 "assets" (asset_manifest "10.0.0"))
           (call_for E10 "manifest" (plain_manifest "10.0.0"))).
  - left. reflexivity.
  - left. reflexivity.
  - reflexivity.
Qed.

(** An asset manifest of version 11.0.0 is refused with the marker; a
    document with a legacy payload comes back as it was parsed. *)
Lemma loadAssetManifest_flow_witness :
  (exists msg,
      loadAssetManifest E10 "assets.json"
        (world E10 [("assets.json", Some (asset_manifest "11.0.0"))])
      = (Throw (Error msg), world E10 [("assets.json", Some (asset_manifest "11.0.0"))])
      /\ String.prefix VERSION_MISMATCH msg = true)
  /\ loadAssetManifest E10_open "assets.json"
       (world E10_open
          [("assets.json",
            Some (VObj (("version", VStr "10.0.0") :: manifest_with [] legacy_payload)))])
     = (Ok (VObj (("version", VStr "10.0.0") :: manifest_with [] legacy_payload)),
        after_call
          (world E10_open
             [("assets.json",
               Some (VObj (("version", VStr "10.0.0") :: manifest_with [] legacy_payload)))])
          (call_for E10_open "assets"
             (VObj (("version", VStr "10.0.0") :: manifest_with [] legacy_payload)))).
Proof.
  split.
  - apply (proj1 (loadAssetManifest_flow E10 "assets.json"
                    (world E10 [("assets.json", Some (asset_manifest "11.0.0"))])
                    (Some (asset_manifest "11.0.0")) (asset_manifest "11.0.0")
                    (VStr "11.0.0") "10.0.0" "11.0.0"
                    eq_refl eq_refl eq_refl eq_refl eq_refl)).
    reflexivity.
  - apply (proj1 (proj2 (loadAssetManifest_flow E10_open "assets.json"
                    (world E10_open
                       [("assets.json",
                         Some (VObj (("version", VStr "10.0.0")
                                     :: manifest_with [] legacy_payload)))])
                    (Some (VObj (("version", VStr "10.0.0") :: manifest_with [] legacy_payload)))
                    (VObj (("version", VStr "10.0.0") :: manifest_with [] legacy_payload))
                    (VStr "10.0.0") "10.0.0" "10.0.0"
                    eq_refl eq_refl eq_refl eq_refl eq_refl)) eq_refl {| errors := [] |});
      reflexivity.
Defined.

(** 2.0.0 over 1.9.9 over 1.0.0-beta by transitivity, and 1.0.0 later
    than 1.0.0-beta. *)
Lemma compareGreaterThan_order_witness :
  Semver.compareGreaterThan
    {| Semver.major := 2; Semver.minor := 0; Semver.patch := 0; Semver.prerelease := [] |}
    {| Semver.major := 1; Semver.minor := 0; Semver.patch := 0;
       Semver.prerelease := [Semver.Alphanumeric "beta"] |} = true
  /\ Semver.later
       {| Semver.major := 1; Semver.minor := 0; Semver.patch := 0; Semver.prerelease := [] |}
       {| Semver.major := 1; Semver.minor := 0; Semver.patch := 0;
          Semver.prerelease := [Semver.Alphanumeric "beta"] |}.
Proof.
  split.
  - apply (proj1 (proj2 (proj2 compareGreaterThan_order))
             {| Semver.major := 2; Semver.minor := 0; Semver.patch := 0; Semver.prerelease := [] |}
             {| Semver.major := 1; Semver.minor := 9; Semver.patch := 9; Semver.prerelease := [] |}
             {| Semver.major := 1; Semver.minor := 0; Semver.patch := 0;
                Semver.prerelease := [Semver.Alphanumeric "beta"] |}); reflexivity.
  - apply (proj1 (proj1 compareGreaterThan_order
             {| Semver.major := 1; Semver.minor := 0; Semver.patch := 0; Semver.prerelease := [] |}
             {| Semver.major := 1; Semver.minor := 0; Semver.patch := 0;
                Semver.prerelease := [Semver.Alphanumeric "beta"] |})).
    reflexivity.
Defined.

(** C10 as stated fails: the only cloud-stack artifact of the manifest
    carries no [metadata], so the manifest is sparse, yet the loop meets
    the [null] entry beside it and throws. *)
Lemma patchStackTags_sparse_null_entry :
  sparse stack_type tags_type
    (VObj [("artifacts", VObj [("s", VObj [("type", VStr stack_type)]); ("x", VNull)])])
  = true
  /\ patchStackTags stack_type tags_type
       (VObj [("artifacts", VObj [("s", VObj [("type", VStr stack_type)]); ("x", VNull)])])
     = Throw TypeError.
Proof. split; reflexivity. Qed.

(** A manifest with a non-stack artifact, a stack without metadata and a
    stack whose tag entries have an empty, a null and a missing payload. *)
Lemma patchStackTags_sparse_witness :
  patchStackTags stack_type tags_type
    (VObj [("version", VStr "10.0.0");
           ("artifacts",
            VObj [("tree", VObj [("type", VStr "cdk:tree")]);
                  ("a", VObj [("type", VStr stack_type)]);
                  ("b", stack_with [tags_entry (VArr []); tags_entry VNull;
                                    VObj [("type", VStr tags_type)]])])])
  = Ok (VObj [("version", VStr "10.0.0");
              ("artifacts",
               VObj [("tree", VObj [("type", VStr "cdk:tree")]);
                     ("a", VObj [("type", VStr stack_type)]);
                     ("b", stack_with [tags_entry (VArr []); tags_entry VNull;
                                       VObj [("type", VStr tags_type)]])])]).
Proof.
  apply (patchStackTags_sparse stack_type tags_type); reflexivity.
Defined.

(** ** When the normalizer completes *)

Lemma completes_bind {A B : Type} (r : result A) (k : A -> result B) :
  completes (bind r k) = match r with Ok a => completes (k a) | Throw _ => false end.
Proof. destruct r; reflexivity. Qed.

Lemma completes_mapM {A B : Type} (f : A -> result B) (l : list A) :
  completes (mapM f l) = forallb (fun x => completes (f x)) l.
Proof.
  induction l as [|a l IH]; simpl; [reflexivity|].
  destruct (f a); simpl; [|reflexivity].
  rewrite <- IH. destruct (mapM f l); reflexivity.
Qed.

Lemma completes_mapM_then {A B C : Type} (f : A -> result B) (l : list A) (k : list B -> C) :
  completes (bind (mapM f l) (fun l' => Ok (k l'))) = forallb (fun x => completes (f x)) l.
Proof. rewrite <- completes_mapM. destruct (mapM f l); reflexivity. Qed.

Lemma forallb_ext {A : Type} (p q : A -> bool) (l : list A) :
  (forall x, p x = q x) -> forallb p l = forallb q l.
Proof.
  intros H. induction l as [|a l IH]; simpl; [reflexivity|]. rewrite H, IH. reflexivity.
Qed.

Lemma forallb_chars (p : value -> bool) (s : string) :
  (forall c, p (VStr c) = true) -> forallb p (chars s) = true.
Proof.
  intros H. induction s as [|c s IH]; simpl; [reflexivity|]. rewrite H, IH. reflexivity.
Qed.

Lemma completes_patchTag t : completes (patchTag t) = negb (nullish t).
Proof. destruct t; reflexivity. Qed.

Lemma completes_patchEntry tags e :
  completes (patchEntry tags e) = shaped_entry tags e.
Proof.
  unfold shaped_entry.
  destruct e as [| |b|n|s|l|fs]; try reflexivity.
  unfold patchEntry. simpl.
  destruct (strict_eq_str (lookup "type" fs) tags); simpl; [|reflexivity].
  unfold mappable_payload.
  destruct (truthy (lookup "data" fs)) eqn:Ht; simpl; [|reflexivity].
  destruct (lookup "data" fs) as [| |b|n|s|l|qs]; try reflexivity.
  simpl. transitivity (completes (mapM patchTag l)).
  - destruct (mapM patchTag l); reflexivity.
  - rewrite completes_mapM. apply forallb_ext. intros t. apply completes_patchTag.
Qed.

Lemma completes_for_of tags es :
  completes (for_of (patchEntry tags) es) = shaped_entries tags es.
Proof.
  destruct es as [| |b|n|s|l|ps]; try reflexivity; simpl.
  - rewrite (completes_mapM_then (patchEntry tags) (chars s) (fun _ => VStr s)).
    apply forallb_chars. reflexivity.
  - rewrite (completes_mapM_then (patchEntry tags) l VArr).
    apply forallb_ext. intros e. apply completes_patchEntry.
Qed.

Lemma forallb_snd {A : Type} (p : value -> bool) (ps : list (A * value)) :
  forallb (fun kv => p (snd kv)) ps = forallb p (map snd ps).
Proof. induction ps as [|kv ps IH]; simpl; [reflexivity|]. rewrite IH. reflexivity. Qed.

(** The loop over [Object.values] completes when its body does on every
    member; on a string every member is a one-character string. *)
Lemma completes_for_values (body : value -> result value) c :
  (forall s, completes (body (VStr s)) = true) ->
  completes (for_values body c)
  = negb (nullish c) && forallb (fun x => completes (body x)) (members c).
Proof.
  intros Hstr. destruct c as [| |b|n|s|l|ps]; try reflexivity; simpl.
  - rewrite (completes_mapM_then body (chars s) (fun _ => VStr s)).
    apply forallb_chars. exact Hstr.
  - apply (completes_mapM_then body l VArr).
  - rewrite <- forallb_snd.
    transitivity (completes (mapM (fun kv : string * value =>
                                     v' <- body (snd kv) ;; Ok (fst kv, v')) ps)).
    + destruct (mapM _ ps); reflexivity.
    + rewrite completes_mapM. apply forallb_ext. intros kv. destruct (body (snd kv)); reflexivity.
Qed.

Lemma members_or_else v : members (or_else v (VArr [])) = members v.
Proof.
  unfold or_else. destruct (truthy v) eqn:Ht; [reflexivity|].
  destruct v; simpl in *; try reflexivity; discriminate.
Qed.

Lemma nullish_or_else v : nullish (or_else v (VArr [])) = false.
Proof.
  unfold or_else. destruct (truthy v) eqn:Ht; [|reflexivity].
  destruct v; simpl in *; try discriminate; reflexivity.
Qed.

Lemma completes_patchArtifact cf tags a :
  completes (patchArtifact cf tags a) = shaped_artifact cf tags a.
Proof.
  unfold shaped_artifact.
  destruct a as [| |b|n|s|l|fs]; try reflexivity.
  unfold patchArtifact. simpl.
  destruct (strict_eq_str (lookup "type" fs) cf); simpl; [|reflexivity].
  transitivity (completes (for_values (for_of (patchEntry tags))
                             (or_else (lookup "metadata" fs) (VArr [])))).
  - destruct (for_values _ _); reflexivity.
  - rewrite completes_for_values by (intros s; rewrite completes_for_of; reflexivity).
    rewrite nullish_or_else, members_or_else. simpl.
    apply forallb_ext. intros es. apply completes_for_of.
Qed.

Lemma completes_patchStackTags cf tags d :
  completes (patchStackTags cf tags d) = shaped cf tags d.
Proof.
  unfold shaped. destruct d as [| |b|n|s|l|ps]; try reflexivity.
  unfold patchStackTags. simpl.
  transitivity (completes (for_values (patchArtifact cf tags)
                             (or_else (lookup "artifacts" ps) (VArr [])))).
  - destruct (for_values _ _); reflexivity.
  - rewrite completes_for_values by (intros s; rewrite completes_patchArtifact; reflexivity).
    rewrite nullish_or_else, members_or_else. simpl.
    apply forallb_ext. intros a. apply completes_patchArtifact.
Qed.

(** X1.  [patchStackTags] returns exactly on the shaped manifests: the
    manifest is not [null], no artifact is [null], and in every
    cloud-stack artifact each member of [metadata] is a string or an array
    of entries that are not [null], the stack-tags ones among them
    carrying a falsy [data] or an array without [null].  On every other
    manifest it throws. *)
Theorem patchStackTags_completes (cf tags : string) (d : value) :
  completes (patchStackTags cf tags d) = shaped cf tags d.
Proof. apply completes_patchStackTags. Qed.

(** ** The only exception of the normalizer *)

Lemma mapM_throws {A B : Type} (f : A -> result B) (l : list A) e :
  (forall x e', f x = Throw e' -> e' = TypeError) ->
  mapM f l = Throw e -> e = TypeError.
Proof.
  intros Hf. induction l as [|a l IH]; simpl; [discriminate|].
  destruct (f a) as [b|e'] eqn:Hfa; simpl.
  - destruct (mapM f l) as [bs|e'']; simpl; [discriminate|].
    intros H. injection H as <-. apply IH. reflexivity.
  - intros H. injection H as <-. eapply Hf. exact Hfa.
Qed.

Lemma patchTag_throws t e : patchTag t = Throw e -> e = TypeError.
Proof.
  destruct t; simpl; intros H; try discriminate; injection H as <-; reflexivity.
Qed.

Lemma patchEntry_throws tags en e : patchEntry tags en = Throw e -> e = TypeError.
Proof.
  unfold patchEntry.
  destruct en as [| |b|n|s|l|fs]; simpl; intros H; try discriminate;
    try (injection H as <-; reflexivity).
  destruct (strict_eq_str (lookup "type" fs) tags); [|discriminate].
  destruct (truthy (lookup "data" fs)); [|discriminate].
  destruct (lookup "data" fs) as [| |b|n|s|l|qs]; simpl in H;
    try (injection H as <-; reflexivity).
  destruct (mapM patchTag l) as [l'|e'] eqn:Hm; simpl in H; [discriminate|].
  injection H as <-. eapply mapM_throws; [|exact Hm]. apply patchTag_throws.
Qed.

Lemma for_of_throws (body : value -> result value) c e :
  (forall x e', body x = Throw e' -> e' = TypeError) ->
  for_of body c = Throw e -> e = TypeError.
Proof.
  intros Hb. destruct c as [| |b|n|s|l|ps]; simpl; intros H;
    try (injection H as <-; reflexivity).
  - destruct (mapM body (chars s)) as [x|e'] eqn:Hm; simpl in H; [discriminate|].
    injection H as <-. eapply mapM_throws; eassumption.
  - destruct (mapM body l) as [x|e'] eqn:Hm; simpl in H; [discriminate|].
    injection H as <-. eapply mapM_throws; eassumption.
Qed.

Lemma for_values_throws (body : value -> result value) c e :
  (forall x e', body x = Throw e' -> e' = TypeError) ->
  for_values body c = Throw e -> e = TypeError.
Proof.
  intros Hb. destruct c as [| |b|n|s|l|ps]; simpl; intros H;
    try discriminate; try (injection H as <-; reflexivity).
  - destruct (mapM body (chars s)) as [x|e'] eqn:Hm; simpl in H; [discriminate|].
    injection H as <-. eapply mapM_throws; eassumption.
  - destruct (mapM body l) as [x|e'] eqn:Hm; simpl in H; [discriminate|].
    injection H as <-. eapply mapM_throws; eassumption.
  - destruct (mapM _ ps) as [x|e'] eqn:Hm; simpl in H; [discriminate|].
    injection H as <-. eapply mapM_throws; [|exact Hm].
    intros kv e''. cbv beta. destruct (body (snd kv)) as [y|e3] eqn:Hy; simpl; intros H;
      [discriminate H|].
    injection H as <-. eapply Hb. exact Hy.
Qed.

Lemma patchArtifact_throws cf tags a e : patchArtifact cf tags a = Throw e -> e = TypeError.
Proof.
  unfold patchArtifact.
  destruct a as [| |b|n|s|l|fs]; simpl; intros H; try discriminate;
    try (injection H as <-; reflexivity).
  destruct (strict_eq_str (lookup "type" fs) cf); [|discriminate].
  destruct (for_values _ _) as [x|e'] eqn:Hfv; simpl in H; [discriminate|].
  injection H as <-. eapply for_values_throws; [|exact Hfv].
  intros x e''. apply for_of_throws. apply patchEntry_throws.
Qed.

Lemma patchStackTags_TypeError cf tags d e :
  patchStackTags cf tags d = Throw e -> e = TypeError.
Proof.
  unfold patchStackTags.
  destruct d as [| |b|n|s|l|ps]; simpl; intros H; try discriminate;
    try (injection H as <-; reflexivity).
  destruct (for_values _ _) as [x|e'] eqn:Hfv; simpl in H; [discriminate|].
  injection H as <-. eapply for_values_throws; [|exact Hfv].
  apply patchArtifact_throws.
Qed.

(** X2.  Whatever the manifest, the only exception [patchStackTags]
    raises is a [TypeError]. *)
Theorem patchStackTags_throws (cf tags : string) (d : value) (e : exn) :
  patchStackTags cf tags d = Throw e -> e = TypeError.
Proof. apply patchStackTags_TypeError. Qed.

(** ** What the normalizer leaves alone *)

Lemma assign_keys k v ps : has_key k ps = true -> map fst (assign k v ps) = map fst ps.
Proof.
  induction ps as [|[k' v'] ps IH]; simpl; [discriminate|].
  destruct (String.eqb k k'); simpl; [reflexivity|].
  intros H. rewrite IH by exact H. reflexivity.
Qed.

Lemma mapM_props_keys (body : value -> result value) (ps ps' : list (string * value)) :
  mapM (fun kv => v' <- body (snd kv) ;; Ok (fst kv, v')) ps = Ok ps' ->
  map fst ps' = map fst ps.
Proof.
  revert ps'. induction ps as [|[k v] ps IH]; simpl; intros ps' H.
  - injection H as <-. reflexivity.
  - destruct (body v) as [v'|]; simpl in H; [|discriminate].
    destruct (mapM _ ps) as [qs|]; simpl in H; [|discriminate].
    injection H as <-. simpl. rewrite (IH qs eq_refl). reflexivity.
Qed.

Lemma has_key_keys k (ps qs : list (string * value)) :
  map fst ps = map fst qs -> has_key k ps = has_key k qs.
Proof.
  revert qs. induction ps as [|[k1 v1] ps IH]; intros [|[k2 v2] qs]; simpl; intros H;
    try discriminate; [reflexivity|].
  injection H as -> H. rewrite (IH qs H). reflexivity.
Qed.

Lemma mapM_length {A B : Type} (f : A -> result B) (l : list A) (l' : list B) :
  mapM f l = Ok l' -> length l' = length l.
Proof.
  revert l'. induction l as [|a l IH]; simpl; intros l' H.
  - injection H as <-. reflexivity.
  - destruct (f a); simpl in H; [|discriminate].
    destruct (mapM f l) as [bs|]; simpl in H; [|discriminate].
    injection H as <-. simpl. rewrite (IH bs eq_refl). reflexivity.
Qed.

Lemma patchStackTags_names cf tags d d' :
  patchStackTags cf tags d = Ok d' -> map fst (own_props d') = map fst (own_props d).
Proof.
  unfold patchStackTags. intros H.
  destruct d as [| |b|n|s|l|ps]; simpl in H; try discriminate;
    try (injection H as <-; reflexivity).
  destruct (for_values _ _); simpl in H; [|discriminate].
  injection H as <-. destruct (truthy (lookup "artifacts" ps)) eqn:Ht; [|reflexivity].
  simpl. apply assign_keys. apply truthy_has_key. exact Ht.
Qed.

(** X3.  When [patchStackTags] completes, the manifest has the property
    names it had, in the same order, and every top-level property other
    than [artifacts], the [version] among them, has the value it had. *)
Theorem patchStackTags_top_level (cf tags : string) (d d' : value) :
  patchStackTags cf tags d = Ok d' ->
  map fst (own_props d') = map fst (own_props d)
  /\ forall k, String.eqb k "artifacts" = false -> field d' k = field d k.
Proof.
  intros H. split.
  - eapply patchStackTags_names. exact H.
  - intros k Hk. eapply patchStackTags_keeps; eassumption.
Qed.

Lemma patchArtifact_other_type cf tags a a' :
  strict_eq_str (field a "type") cf = false ->
  patchArtifact cf tags a = Ok a' -> a' = a.
Proof.
  unfold patchArtifact. intros Hty H.
  destruct a as [| |b|n|s|l|fs]; simpl in *; try discriminate;
    try (injection H as <-; reflexivity).
  rewrite Hty in H. injection H as <-. reflexivity.
Qed.

Lemma patchEntry_other_type tags e e' :
  strict_eq_str (field e "type") tags = false ->
  patchEntry tags e = Ok e' -> e' = e.
Proof.
  unfold patchEntry. intros Hty H.
  destruct e as [| |b|n|s|l|fs]; simpl in *; try discriminate;
    try (injection H as <-; reflexivity).
  rewrite Hty in H. injection H as <-. reflexivity.
Qed.

(** An artifact that is missing before is missing after. *)
Lemma patchStackTags_no_artifact cf tags d d' a :
  patchStackTags cf tags d = Ok d' ->
  artifact_at d a = VUndef -> artifact_at d' a = VUndef.
Proof.
  unfold artifact_at, patchStackTags. intros H Ha.
  destruct d as [| |b|n|s|l|ps]; simpl in H; try discriminate;
    try (injection H as <-; exact Ha).
  simpl in Ha. unfold or_else in H.
  destruct (truthy (lookup "artifacts" ps)) eqn:Ht.
  - destruct (lookup "artifacts" ps) as [| |b|n|s|l|arts] eqn:Harts; simpl in H;
      try discriminate.
    + injection H as <-. simpl. rewrite lookup_assign_eq. reflexivity.
    + injection H as <-. simpl. rewrite lookup_assign_eq. reflexivity.
    + destruct (mapM _ (chars s)); simpl in H; [|discriminate].
      injection H as <-. simpl. rewrite lookup_assign_eq. reflexivity.
    + destruct (mapM _ l); simpl in H; [|discriminate].
      injection H as <-. simpl. rewrite lookup_assign_eq. reflexivity.
    + destruct (mapM _ arts) as [arts'|] eqn:Hm; simpl in H; [|discriminate].
      injection H as <-. simpl. rewrite lookup_assign_eq. simpl. simpl in Ha.
      destruct (has_key a arts) eqn:Hk.
      * destruct (mapM_props_lookup _ _ _ a Hm Hk) as [Hb _].
        rewrite Ha in Hb. discriminate.
      * apply has_key_false_lookup.
        rewrite (has_key_keys a arts' arts (mapM_props_keys _ _ _ Hm)). exact Hk.
  - simpl in H. injection H as <-. exact Ha.
Qed.

Lemma patchStackTags_other_artifact cf tags d d' a :
  patchStackTags cf tags d = Ok d' ->
  strict_eq_str (field (artifact_at d a) "type") cf = false ->
  artifact_at d' a = artifact_at d a.
Proof.
  intros H Hty. remember (artifact_at d a) as x eqn:Hx.
  assert (Hcase : x = VUndef \/ x <> VUndef)
    by (destruct x; (left; reflexivity) || (right; discriminate)).
  destruct Hcase as [->|Hne].
  - eapply patchStackTags_no_artifact; [exact H|]. symmetry. exact Hx.
  - apply (patchArtifact_other_type cf tags _ _ Hty).
    rewrite Hx. apply patchStackTags_artifact; [exact H|]. rewrite <- Hx. exact Hne.
Qed.

(** X4.  When [patchStackTags] completes, every artifact whose [type] is
    not the cloud-stack type is exactly as it was, and an artifact name
    that was not bound is still not bound. *)
Theorem patchStackTags_other_artifacts (cf tags : string) (d d' : value) (a : string) :
  patchStackTags cf tags d = Ok d' ->
  strict_eq_str (field (artifact_at d a) "type") cf = false ->
  artifact_at d' a = artifact_at d a.
Proof. apply patchStackTags_other_artifact. Qed.

Lemma field_falsy v k : truthy v = false -> field v k = VUndef.
Proof. destruct v; simpl; intros H; try reflexivity; discriminate. Qed.

(** The entries a cloud-stack artifact lists under [m], after the loops:
    the images of the entries it listed before. *)
Lemma patchArtifact_entries cf tags art art' m :
  patchArtifact cf tags art = Ok art' ->
  strict_eq_str (field art "type") cf = true ->
  mapM (patchEntry tags) (items (field (field art "metadata") m))
  = Ok (items (field (field art' "metadata") m)).
Proof.
  intros H Hty.
  destruct (field_not_undef_obj art "type" (strict_eq_str_not_undef _ _ Hty)) as [fs ->].
  simpl in *. unfold patchArtifact in H; simpl in H. rewrite Hty in H. simpl in H.
  unfold or_else in H.
  destruct (truthy (lookup "metadata" fs)) eqn:Ht.
  - destruct (lookup "metadata" fs) as [| |b|n|s|l|mds] eqn:Hmd; simpl in H; try discriminate.
    + injection H as <-. simpl. rewrite lookup_assign_eq. reflexivity.
    + injection H as <-. simpl. rewrite lookup_assign_eq. reflexivity.
    + destruct (mapM _ (chars s)); simpl in H; [|discriminate].
      injection H as <-. simpl. rewrite lookup_assign_eq. reflexivity.
    + destruct (mapM _ l); simpl in H; [|discriminate].
      injection H as <-. simpl. rewrite lookup_assign_eq. reflexivity.
    + destruct (mapM _ mds) as [mds'|] eqn:Hm; simpl in H; [|discriminate].
      injection H as <-. simpl. rewrite lookup_assign_eq. simpl.
      destruct (has_key m mds) eqn:Hk.
      * destruct (mapM_props_lookup _ _ _ m Hm Hk) as [Hb _].
        destruct (lookup m mds) as [| |b|n|s|es|qs]; simpl in Hb; try discriminate.
        -- destruct (mapM _ (chars s)); simpl in Hb; [|discriminate].
           injection Hb as Hb. rewrite <- Hb. reflexivity.
        -- destruct (mapM (patchEntry tags) es) as [es'|] eqn:Hes; simpl in Hb; [|discriminate].
           injection Hb as Hb. rewrite <- Hb. simpl. exact Hes.
      * rewrite (has_key_false_lookup _ _ Hk).
        rewrite has_key_false_lookup; [reflexivity|].
        rewrite (has_key_keys m mds' mds (mapM_props_keys _ _ _ Hm)). exact Hk.
  - simpl in H. injection H as <-. simpl.
    rewrite (field_falsy _ m Ht). reflexivity.
Qed.

(** X5.  When [patchStackTags] completes, every list of metadata entries
    has the length it had, and every entry whose [type] is not the
    stack-tags type is exactly as it was, at the same position. *)
Theorem patchStackTags_other_entries (cf tags : string) (d d' : value) (a m : string) :
  patchStackTags cf tags d = Ok d' ->
  length (entries_at d' a m) = length (entries_at d a m)
  /\ forall i e,
       nth_error (entries_at d a m) i = Some e ->
       strict_eq_str (field e "type") tags = false ->
       nth_error (entries_at d' a m) i = Some e.
Proof.
  intros H. unfold entries_at.
  destruct (strict_eq_str (field (artifact_at d a) "type") cf) eqn:Hty.
  - assert (Ha : artifact_at d a <> VUndef).
    { intros Hu. rewrite Hu in Hty. discriminate. }
    pose proof (patchArtifact_entries cf tags _ _ m
                  (patchStackTags_artifact cf tags d d' a H Ha) Hty) as Hm.
    split.
    + eapply mapM_length. exact Hm.
    + intros i e Hi He.
      destruct (mapM_nth _ _ _ Hm i e Hi) as [e' [Hi' He']].
      rewrite Hi'. f_equal. eapply patchEntry_other_type; eassumption.
  - rewrite (patchStackTags_other_artifact cf tags d d' a H Hty).
    split; [reflexivity|]. intros i e Hi _. exact Hi.
Qed.

(** ** The payloads after the normalizer *)

Lemma mapM_post {A B : Type} (f : A -> result B) (Q : B -> Prop) (l : list A) (l' : list B) :
  (forall x y, f x = Ok y -> Q y) -> mapM f l = Ok l' -> Forall Q l'.
Proof.
  intros Hf. revert l'. induction l as [|a l IH]; simpl; intros l' H.
  - injection H as <-. constructor.
  - destruct (f a) as [b|] eqn:Hfa; simpl in H; [|discriminate].
    destruct (mapM f l) as [bs|]; simpl in H; [|discriminate].
    injection H as <-. constructor; [eapply Hf; exact Hfa|apply IH; reflexivity].
Qed.

Lemma for_of_post (body : value -> result value) (Q : value -> Prop) c c' :
  (forall x y, body x = Ok y -> Q y) -> for_of body c = Ok c' -> Forall Q (items c').
Proof.
  intros Hb H. destruct c as [| |b|n|s|l|ps]; simpl in H; try discriminate.
  - destruct (mapM body (chars s)); simpl in H; [|discriminate].
    injection H as <-. constructor.
  - destruct (mapM body l) as [l'|] eqn:Hm; simpl in H; [|discriminate].
    injection H as <-. simpl. eapply mapM_post; eassumption.
Qed.

Lemma for_values_post (body : value -> result value) (Q : value -> Prop) c c' :
  (forall x y, body x = Ok y -> Q y) -> for_values body c = Ok c' -> Forall Q (members c').
Proof.
  intros Hb H. destruct c as [| |b|n|s|l|ps]; simpl in H; try discriminate.
  - injection H as <-. constructor.
  - injection H as <-. constructor.
  - destruct (mapM body (chars s)); simpl in H; [|discriminate].
    injection H as <-. constructor.
  - destruct (mapM body l) as [l'|] eqn:Hm; simpl in H; [|discriminate].
    injection H as <-. simpl. eapply mapM_post; eassumption.
  - destruct (mapM _ ps) as [ps'|] eqn:Hm; simpl in H; [|discriminate].
    injection H as <-. simpl.
    assert (HF : Forall (fun kv : string * value => Q (snd kv)) ps').
    { eapply mapM_post; [|exact Hm]. intros kv [k' y]. cbv beta.
      destruct (body (snd kv)) as [z|] eqn:Hz; simpl; intros E; [|discriminate E].
      injection E as _ <-. simpl. eapply Hb. exact Hz. }
    clear -HF. induction HF; simpl; constructor; assumption.
Qed.

Lemma members_falsy v : truthy v = false -> members v = [].
Proof. destruct v; simpl; intros H; try reflexivity; discriminate. Qed.

Lemma patchEntry_post tags e e1 :
  patchEntry tags e = Ok e1 -> no_legacy_entry tags e1 = true.
Proof.
  unfold patchEntry, no_legacy_entry. intros H.
  destruct e as [| |b|n|s|l|fs]; simpl in H; try discriminate;
    try (injection H as <-; reflexivity).
  destruct (strict_eq_str (lookup "type" fs) tags) eqn:Hty.
  - destruct (truthy (lookup "data" fs)) eqn:Ht.
    + destruct (lookup "data" fs) as [| |b|n|s|l|qs]; simpl in H; try discriminate.
      destruct (mapM patchTag l) as [l1|] eqn:Hm; simpl in H; [|discriminate].
      injection H as <-. simpl. rewrite lookup_assign_eq. simpl.
      apply orb_true_iff. right. apply forallb_forall.
      apply Forall_forall. eapply mapM_post; [|exact Hm].
      intros t y Hy. rewrite (patchTag_canonical t y Hy). reflexivity.
    + injection H as <-. simpl. apply orb_true_iff. right.
      destruct (lookup "data" fs); simpl in *; try reflexivity; discriminate.
  - injection H as <-. simpl. rewrite Hty. reflexivity.
Qed.

Lemma patchArtifact_post cf tags a a1 :
  patchArtifact cf tags a = Ok a1 -> no_legacy_artifact cf tags a1 = true.
Proof.
  unfold patchArtifact, no_legacy_artifact. intros H.
  destruct a as [| |b|n|s|l|fs]; simpl in H; try discriminate;
    try (injection H as <-; reflexivity).
  destruct (strict_eq_str (lookup "type" fs) cf) eqn:Hty.
  - unfold or_else in H.
    destruct (truthy (lookup "metadata" fs)) eqn:Ht.
    + destruct (for_values _ _) as [md1|] eqn:Hfv; simpl in H; [|discriminate].
      injection H as <-. simpl. rewrite lookup_assign_eq.
      apply orb_true_iff. right. apply forallb_forall. apply Forall_forall.
      eapply for_values_post; [|exact Hfv].
      intros es es1 Hes. cbv beta. apply forallb_forall. apply Forall_forall.
      eapply for_of_post; [|exact Hes]. apply patchEntry_post.
    + simpl in H. injection H as <-. simpl.
      rewrite (members_falsy _ Ht). apply orb_true_r.
  - injection H as <-. simpl. rewrite Hty. reflexivity.
Qed.

(** X6.  What [patchStackTags] returns holds no capitalized field any
    more: in the result, no payload element that the loops reach carries a
    [Key] or a [Value]. *)
Theorem patchStackTags_output (cf tags : string) (d d1 : value) :
  patchStackTags cf tags d = Ok d1 -> no_legacy cf tags d1 = true.
Proof.
  unfold patchStackTags, no_legacy. intros H.
  destruct d as [| |b|n|s|l|ps]; simpl in H; try discriminate;
    try (injection H as <-; reflexivity).
  unfold or_else in H.
  destruct (truthy (lookup "artifacts" ps)) eqn:Ht.
  - destruct (for_values _ _) as [arts1|] eqn:Hfv; simpl in H; [|discriminate].
    injection H as <-. simpl. rewrite lookup_assign_eq.
    apply forallb_forall. apply Forall_forall.
    eapply for_values_post; [|exact Hfv]. apply patchArtifact_post.
  - simpl in H. injection H as <-. simpl. rewrite (members_falsy _ Ht). reflexivity.
Qed.

(** ** What the loaders do to the world, and what a returned document
    has been through *)

Section Loaders.

Variable E : Env.

Lemma _validate_ok kind doc v w u w' :
  _validate E (VObj [(kind, doc)]) v w = (Ok u, w') ->
  exists maxSupported actual r,
    parseVersion E (version E) = Ok maxSupported
    /\ parseVersion E v = Ok actual
    /\ semver_gt E actual maxSupported = Ok false
    /\ Validator_validate E (VObj [(kind, doc)]) (schema E) strict_options = Ok r
    /\ valid r = true
    /\ w' = after_call w (call_for E kind doc).
Proof.
  unfold _validate, bindM, lift, validator_validate. simpl. fold strict_options.
  destruct (parseVersion E (version E)) as [maxSupported|]; [|discriminate].
  destruct (parseVersion E v) as [actual|]; [|discriminate].
  destruct (semver_gt E actual maxSupported) as [[|]|] eqn:Hgt; try discriminate.
  destruct (Validator_validate E _ _ _) as [r|] eqn:Hr; [|discriminate].
  destruct (valid r) eqn:Hv; simpl; [|discriminate].
  intros H. injection H as _ <-.
  exists maxSupported, actual, r. repeat split; try reflexivity; assumption.
Qed.

Lemma _validate_world kind doc v w :
  snd (_validate E (VObj [(kind, doc)]) v w) = w
  \/ snd (_validate E (VObj [(kind, doc)]) v w) = after_call w (call_for E kind doc).
Proof.
  unfold _validate, bindM, lift, validator_validate. simpl. fold strict_options.
  destruct (parseVersion E (version E)) as [maxSupported|]; [|left; reflexivity].
  destruct (parseVersion E v) as [actual|]; [|left; reflexivity].
  destruct (semver_gt E actual maxSupported) as [[|]|]; try (left; reflexivity).
  right. destruct (Validator_validate E _ _ _) as [r|]; [|reflexivity].
  destruct (valid r); reflexivity.
Qed.

(** X7.  Neither loader ever writes a file, and neither calls the
    validator more than once: after [load] or [loadAssetManifest], whether
    it returned or threw, the files are the same and the world is either
    untouched or has one more validator call, on the document wrapped under
    [manifest] (for [load]) or [assets] (for [loadAssetManifest]), with
    [Manifest.schema] and the strict options. *)
Theorem loaders_frame (p : string) (w : World E) :
  (files (snd (load E p w)) = files w
   /\ (snd (load E p w) = w
       \/ exists doc, snd (load E p w) = after_call w (call_for E "manifest" doc)))
  /\ (files (snd (loadAssetManifest E p w)) = files w
      /\ (snd (loadAssetManifest E p w) = w
          \/ exists doc,
               snd (loadAssetManifest E p w) = after_call w (call_for E "assets" doc))).
Proof.
  assert (Hfiles : forall (w1 : World E),
             (w1 = w \/ exists kind doc, w1 = after_call w (call_for E kind doc)) ->
             files w1 = files w).
  { intros w1 [->|[kind [doc ->]]]; reflexivity. }
  assert (Hload : snd (load E p w) = w
                  \/ exists doc, snd (load E p w) = after_call w (call_for E "manifest" doc)).
  { unfold load, bindM, readFileSync, parse, lift, ret, throw.
    destruct (files w p) as [t|]; [|left; reflexivity].
    destruct (JSON_parse E t) as [raw|]; [|left; reflexivity].
    destruct (patchStackTags _ _ raw) as [doc|]; [|left; reflexivity].
    destruct (get doc "version") as [v|]; [|left; reflexivity].
    destruct (_validate_world "manifest" doc v w) as [Hw|Hw];
      destruct (_validate E _ v w) as [[u|e] w1]; simpl in *; subst w1;
      (left; reflexivity) || (right; exists doc; reflexivity). }
  assert (Hassets : snd (loadAssetManifest E p w) = w
                    \/ exists doc,
                         snd (loadAssetManifest E p w)
                         = after_call w (call_for E "assets" doc)).
  { unfold loadAssetManifest, bindM, readFileSync, parse, lift, ret, throw.
    destruct (files w p) as [t|]; [|left; reflexivity].
    destruct (JSON_parse E t) as [raw|]; [|left; reflexivity].
    destruct (get raw "version") as [v|]; [|left; reflexivity].
    destruct (_validate_world "assets" raw v w) as [Hw|Hw];
      destruct (_validate E _ v w) as [[u|e] w1]; simpl in *; subst w1;
      (left; reflexivity) || (right; exists raw; reflexivity). }
  split; (split; [apply Hfiles|]).
  - destruct Hload as [H|[doc H]]; [left; exact H|right; exists "manifest", doc; exact H].
  - exact Hload.
  - destruct Hassets as [H|[doc H]]; [left; exact H|right; exists "assets", doc; exact H].
  - exact Hassets.
Qed.

(** X8.  A document that [load] returns has been through every step: the
    file exists, its text parses, the document is what the normalizer made
    of the parsed value, both the current version and the document's
    version are valid, the document's version is not greater than the
    current one, and the validator has accepted the document wrapped under
    [manifest]; that validator call is the only change to the world. *)
Theorem load_returns (p : string) (w w' : World E) (doc : value) :
  load E p w = (Ok doc, w') ->
  exists t raw maxSupported actual r,
    files w p = Some t
    /\ JSON_parse E t = Some raw
    /\ patchStackTags (AWS_CLOUDFORMATION_STACK E) (STACK_TAGS E) raw = Ok doc
    /\ parseVersion E (version E) = Ok maxSupported
    /\ parseVersion E (field doc "version") = Ok actual
    /\ semver_gt E actual maxSupported = Ok false
    /\ Validator_validate E (VObj [("manifest", doc)]) (schema E) strict_options = Ok r
    /\ valid r = true
    /\ w' = after_call w (call_for E "manifest" doc).
Proof.
  unfold load, bindM, readFileSync, parse, lift, ret, throw.
  destruct (files w p) as [t|] eqn:Hf; [|discriminate].
  destruct (JSON_parse E t) as [raw|] eqn:Hp; [|discriminate].
  destruct (patchStackTags _ _ raw) as [d|] eqn:Hn; [|discriminate].
  rewrite (patchStackTags_get _ _ _ _ "version" Hn).
  destruct (_validate E (VObj [("manifest", d)]) (field d "version") w) as [[u|e] w1] eqn:Hv;
    [|discriminate].
  intros H. injection H as <- <-.
  destruct (_validate_ok _ _ _ _ _ _ Hv) as [m [a [r [H1 [H2 [H3 [H4 [H5 H6]]]]]]]].
  exists t, raw, m, a, r. repeat split; assumption.
Qed.

(** X9.  A document that [loadAssetManifest] returns is the parsed value
    itself, its [version] is valid and not greater than the current one,
    and the validator has accepted it wrapped under [assets]; that
    validator call is the only change to the world. *)
Theorem loadAssetManifest_returns (p : string) (w w' : World E) (doc : value) :
  loadAssetManifest E p w = (Ok doc, w') ->
  exists t v maxSupported actual r,
    files w p = Some t
    /\ JSON_parse E t = Some doc
    /\ get doc "version" = Ok v
    /\ parseVersion E (version E) = Ok maxSupported
    /\ parseVersion E v = Ok actual
    /\ semver_gt E actual maxSupported = Ok false
    /\ Validator_validate E (VObj [("assets", doc)]) (schema E) strict_options = Ok r
    /\ valid r = true
    /\ w' = after_call w (call_for E "assets" doc).
Proof.
  unfold loadAssetManifest, bindM, readFileSync, parse, lift, ret, throw.
  destruct (files w p) as [t|] eqn:Hf; [|discriminate].
  destruct (JSON_parse E t) as [raw|] eqn:Hp; [|discriminate].
  destruct (get raw "version") as [v|] eqn:Hg; [|discriminate].
  destruct (_validate E (VObj [("assets", raw)]) v w) as [[u|e] w1] eqn:Hv; [|discriminate].
  intros H. injection H as <- <-.
  destruct (_validate_ok _ _ _ _ _ _ Hv) as [m [a [r [H1 [H2 [H3 [H4 [H5 H6]]]]]]]].
  exists t, v, m, a, r. repeat split; assumption.
Qed.

(** X10.  A missing file makes both loaders throw the file system's
    error, and a text that is not JSON makes both throw [SyntaxError]; in
    either case nothing else happens: the world is as before. *)
Theorem loaders_unreadable (p : string) (w : World E) :
  (files w p = None ->
   load E p w = (Throw (ENOENT p), w)
   /\ loadAssetManifest E p w = (Throw (ENOENT p), w))
  /\ (forall t, files w p = Some t -> JSON_parse E t = None ->
      load E p w = (Throw SyntaxError, w)
      /\ loadAssetManifest E p w = (Throw SyntaxError, w)).
Proof.
  split.
  - intros Hf. unfold load, loadAssetManifest, bindM, readFileSync. rewrite Hf.
    split; reflexivity.
  - intros t Hf Hp. unfold load, loadAssetManifest, bindM, readFileSync, parse.
    rewrite Hf, Hp. split; reflexivity.
Qed.

(** X11.  The current version is parsed before the document's: in a build
    whose own version constant is not a valid version, [_validate] stops
    on that constant for every document and every version handed to it,
    and the validator is not called.  It throws [Invalid semver string]
    with the constant as the template literal prints it, or the
    [TypeError] of the template literal when the constant cannot be
    printed. *)
Theorem _validate_invalid_current (assmbly v : value) (w : World E) :
  semver_valid E (version E) = None ->
  _validate E assmbly v w
  = (match to_string (version E) with
     | Ok s => Throw (Error ("Invalid semver string: " ++ dquote ++ s ++ dquote))
     | Throw e => Throw e
     end, w).
Proof.
  intros H. unfold _validate, bindM, lift.
  rewrite (parseVersion_invalid E _ H). unfold throw_invalid_semver.
  destruct (to_string (version E)); reflexivity.
Qed.

(** X12.  A manifest of a newer version is refused before the validator
    is called: [load] throws the error whose message is the marker
    followed by the greatest supported version and the version found, and
    the world is as before. *)
Theorem load_newer_refused (p : string) (w : World E) (t : text E)
    (raw doc : value) (maxSupported actual : string) :
  files w p = Some t ->
  JSON_parse E t = Some raw ->
  patchStackTags (AWS_CLOUDFORMATION_STACK E) (STACK_TAGS E) raw = Ok doc ->
  parseVersion E (version E) = Ok maxSupported ->
  parseVersion E (field raw "version") = Ok actual ->
  semver_gt E actual maxSupported = Ok true ->
  load E p w
  = (Throw (Error (VERSION_MISMATCH ++ ": Maximum schema version supported is "
                     ++ maxSupported ++ ", but found " ++ actual)), w).
Proof.
  intros Hf Hp Hn Hmax Hact Hgt.
  rewrite <- (patchStackTags_keeps _ _ _ _ "version" eq_refl Hn) in Hact.
  rewrite (load_to_validate E p w t raw doc Hf Hp Hn).
  rewrite (_validate_newer E _ _ w _ _ Hmax Hact Hgt). reflexivity.
Qed.

End Loaders.

(** ** What save writes *)

Lemma NoDup_snoc {A : Type} (l : list A) (k : A) :
  NoDup l -> ~ In k l -> NoDup (l ++ [k])%list.
Proof.
  induction 1 as [|x l Hx Hl IH]; simpl; intros Hk.
  - constructor; [intros []|constructor].
  - constructor.
    + intros Hin. apply in_app_or in Hin. destruct Hin as [Hin|[->|[]]].
      * exact (Hx Hin).
      * apply Hk. left. reflexivity.
    + apply IH. intros Hin. apply Hk. right. exact Hin.
Qed.

Lemma assign_NoDup k v ps : NoDup (map fst ps) -> NoDup (map fst (assign k v ps)).
Proof.
  intros Hnd. destruct (has_key k ps) eqn:Hk.
  - rewrite (assign_keys k v ps Hk). exact Hnd.
  - assert (Hn : ~ In k (map fst ps)).
    { intros Hin. apply has_key_in in Hin. rewrite Hin in Hk. discriminate. }
    rewrite (assign_fresh k v ps Hn). rewrite map_app. simpl.
    apply NoDup_snoc; assumption.
Qed.

Lemma spread_NoDup (ps acc : list (string * value)) :
  NoDup (map fst acc) ->
  NoDup (map fst (fold_left (fun a kv => assign (fst kv) (snd kv) a) ps acc)).
Proof.
  revert acc. induction ps as [|[k v] ps IH]; simpl; intros acc Hnd; [exact Hnd|].
  apply IH. apply assign_NoDup. exact Hnd.
Qed.

(** X13.  [save] calls no validator and reads no file; it throws only
    what the file system throws when it refuses the write, and returns
    otherwise.  For a manifest object with distinct property names, the
    text it hands to the file system is that of an object without a
    repeated property name, in which every property other than [version]
    has the value the manifest gives it (none if the manifest has none),
    and [version] has the manifest's own value when the manifest has the
    property, the current version otherwise.  After an accepted write the
    destination holds that text and every other file is as before. *)
Theorem save_writes (E : Env) (ps : list (string * value)) (p : string) (w : World E) :
  NoDup (map fst ps) ->
  exists qs,
    save E (VObj ps) p w
    = match write_refused w p (JSON_stringify E (VObj qs)) with
      | None => (Ok tt, with_file E w p (Some (JSON_stringify E (VObj qs))))
      | Some (e, remains) => (Throw e, with_file E w p remains)
      end
    /\ NoDup (map fst qs)
    /\ lookup "version" qs
       = (if has_key "version" ps then lookup "version" ps else version E)
    /\ forall k, String.eqb k "version" = false -> lookup k qs = lookup k ps.
Proof.
  intros Hnd.
  exists (fold_left (fun a kv => assign (fst kv) (snd kv) a) ps [("version", version E)]).
  split; [reflexivity|split; [|split]].
  - apply spread_NoDup. simpl. constructor; [intros []|constructor].
  - rewrite (lookup_spread "version" ps _ Hnd). reflexivity.
  - intros k Hk. rewrite (lookup_spread k ps _ Hnd).
    destruct (has_key k ps) eqn:Hh; [reflexivity|].
    cbn [lookup]. rewrite Hk. symmetry. apply has_key_false_lookup. exact Hh.
Qed.

(** X14.  [loadAssetManifest] after [saveAssetManifest] gives back what
    was saved, untouched, with the current version in front: for an object
    without a [version] of its own, provided the file system accepts the
    write, the written text parses back to what was written, the current
    version is valid and not greater than itself, and the validator accepts
    the stamped object wrapped under [assets]. *)
Theorem saveAssetManifest_then_load (E : Env) (p : string) (w : World E)
    (ps : list (string * value)) (current : string) (r : ValidatorResult) :
  NoDup (map fst ps) ->
  has_key "version" ps = false ->
  write_refused w p (JSON_stringify E (VObj (("version", version E) :: ps))) = None ->
  JSON_parse E (JSON_stringify E (VObj (("version", version E) :: ps)))
    = Some (VObj (("version", version E) :: ps)) ->
  parseVersion E (version E) = Ok current ->
  semver_gt E current current = Ok false ->
  Validator_validate E (VObj [("assets", VObj (("version", version E) :: ps))])
    (schema E) strict_options = Ok r ->
  valid r = true ->
  fst (seq (saveAssetManifest E (VObj ps) p) (loadAssetManifest E p) w)
  = Ok (VObj (("version", version E) :: ps)).
Proof.
  intros Hnd Hk Hw Hjson Hcur Hgt Hr Hv.
  unfold seq, bindM, saveAssetManifest. rewrite (literal_spread_fresh _ _ _ Hnd Hk).
  unfold writeFileSync. rewrite Hw.
  set (w1 := with_file E w p _).
  assert (Hf : files w1 p = Some (JSON_stringify E (VObj (("version", version E) :: ps)))).
  { unfold w1; simpl. rewrite String.eqb_refl. reflexivity. }
  rewrite (loadAssetManifest_to_validate E p w1 _ _ (version E) Hf Hjson eq_refl).
  rewrite (_validate_not_newer E _ _ _ w1 _ _ Hcur Hcur Hgt).
  rewrite Hr, Hv. reflexivity.
Qed.

(** X15.  A manifest that is not shaped never reaches the version check:
    [load] throws the [TypeError] of the normalizer, whatever the version
    the manifest declares, and the world is as before. *)
Theorem load_ill_shaped (E : Env) (p : string) (w : World E) (t : text E) (raw : value) :
  files w p = Some t ->
  JSON_parse E t = Some raw ->
  shaped (AWS_CLOUDFORMATION_STACK E) (STACK_TAGS E) raw = false ->
  load E p w = (Throw TypeError, w).
Proof.
  intros Hf Hp Hs. unfold load, bindM, readFileSync, parse, lift, ret.
  rewrite Hf, Hp. rewrite <- completes_patchStackTags in Hs.
  destruct (patchStackTags _ _ raw) as [doc|e] eqn:Hn; [discriminate|].
  rewrite (patchStackTags_TypeError _ _ _ _ Hn). reflexivity.
Qed.

(** ** The added statements at concrete documents *)

(** A manifest with a [null] artifact. *)
Lemma patchStackTags_throws_witness :
  exists e,
    patchStackTags stack_type tags_type (null_artifact_manifest []) = Throw e
    /\ e = TypeError.
Proof.
  exists TypeError. split; [reflexivity|].
  apply (patchStackTags_throws stack_type tags_type (null_artifact_manifest []) TypeError
           eq_refl).
Defined.

(** The version and the names of a manifest with a legacy payload. *)
Lemma patchStackTags_top_level_witness :
  field (VObj (("version", VStr "9.1.0") :: manifest_with [] canonical_payload)) "version"
  = VStr "9.1.0".
Proof.
  apply (proj2 (patchStackTags_top_level stack_type tags_type
                  (VObj (("version", VStr "9.1.0") :: manifest_with [] legacy_payload))
                  (VObj (("version", VStr "9.1.0") :: manifest_with [] canonical_payload))
                  eq_refl) "version" eq_refl).
Defined.

(** An asset-manifest artifact beside a stack with a legacy payload. *)
Lemma patchStackTags_other_artifacts_witness :
  artifact_at
    (VObj [("artifacts",
            VObj [("assets", VObj [("type", VStr "cdk:asset-manifest");
                                   ("metadata", VObj [("/a", VArr [tags_entry legacy_payload])])]);
                  ("s", stack_with [tags_entry canonical_payload])])])
    "assets"
  = VObj [("type", VStr "cdk:asset-manifest");
          ("metadata", VObj [("/a", VArr [tags_entry legacy_payload])])].
Proof.
  apply (patchStackTags_other_artifacts stack_type tags_type
           (VObj [("artifacts",
                   VObj [("assets",
                          VObj [("type", VStr "cdk:asset-manifest");
                                ("metadata", VObj [("/a", VArr [tags_entry legacy_payload])])]);
                         ("s", stack_with [tags_entry legacy_payload])])])
           _ "assets" eq_refl eq_refl).
Defined.

(** A logical-id entry beside a stack-tags entry. *)
Lemma patchStackTags_other_entries_witness :
  nth_error
    (entries_at
       (VObj [("artifacts",
               VObj [("s", stack_with [tags_entry canonical_payload;
                                       VObj [("type", VStr "aws:cdk:logicalId");
                                             ("data", VStr "Bucket83908E77")]])])])
       "s" "/s") 1
  = Some (VObj [("type", VStr "aws:cdk:logicalId"); ("data", VStr "Bucket83908E77")]).
Proof.
  apply (proj2 (patchStackTags_other_entries stack_type tags_type
                  (VObj [("artifacts",
                          VObj [("s", stack_with [tags_entry legacy_payload;
                                                  VObj [("type", VStr "aws:cdk:logicalId");
                                                        ("data", VStr "Bucket83908E77")]])])])
                  _ "s" "/s" eq_refl) 1%nat _ eq_refl eq_refl).
Defined.

(** The normalized form of the manifest with a legacy payload. *)
Lemma patchStackTags_output_witness :
  no_legacy stack_type tags_type (VObj (manifest_with [] canonical_payload)) = true.
Proof.
  apply (patchStackTags_output stack_type tags_type
           (VObj (manifest_with [] legacy_payload)) _ eq_refl).
Defined.

(** A plain manifest of the current version, loaded. *)
Lemma load_returns_witness :
  exists t raw maxSupported actual r,
    files (world E10 [("manifest.json", Some (plain_manifest "10.0.0"))]) "manifest.json" = Some t
    /\ JSON_parse E10 t = Some raw
    /\ patchStackTags (AWS_CLOUDFORMATION_STACK E10) (STACK_TAGS E10) raw
       = Ok (plain_manifest "10.0.0")
    /\ parseVersion E10 (version E10) = Ok maxSupported
    /\ parseVersion E10 (field (plain_manifest "10.0.0") "version") = Ok actual
    /\ semver_gt E10 actual maxSupported = Ok false
    /\ Validator_validate E10 (VObj [("manifest", plain_manifest "10.0.0")]) (schema E10)
         strict_options = Ok r
    /\ valid r = true
    /\ after_call (world E10 [("manifest.json", Some (plain_manifest "10.0.0"))])
         (call_for E10 "manifest" (plain_manifest "10.0.0"))
       = after_call (world E10 [("manifest.json", Some (plain_manifest "10.0.0"))])
           (call_for E10 "manifest" (plain_manifest "10.0.0")).
Proof.
  apply (load_returns E10 "manifest.json"
           (world E10 [("manifest.json", Some (plain_manifest "10.0.0"))])
           (after_call (world E10 [("manifest.json", Some (plain_manifest "10.0.0"))])
              (call_for E10 "manifest" (plain_manifest "10.0.0")))
           (plain_manifest "10.0.0") eq_refl).
Defined.

(** An asset manifest of an older version, loaded. *)
Lemma loadAssetManifest_returns_witness :
  exists t v maxSupported actual r,
    files (world E10 [("assets.json", Some (asset_manifest "9.1.0"))]) "assets.json" = Some t
    /\ JSON_parse E10 t = Some (asset_manifest "9.1.0")
    /\ get (asset_manifest "9.1.0") "version" = Ok v
    /\ parseVersion E10 (version E10) = Ok maxSupported
    /\ parseVersion E10 v = Ok actual
    /\ semver_gt E10 actual maxSupported = Ok false
    /\ Validator_validate E10 (VObj [("assets", asset_manifest "9.1.0")]) (schema E10)
         strict_options = Ok r
    /\ valid r = true
    /\ after_call (world E10 [("assets.json", Some (asset_manifest "9.1.0"))])
         (call_for E10 "assets" (asset_manifest "9.1.0"))
       = after_call (world E10 [("assets.json", Some (asset_manifest "9.1.0"))])
           (call_for E10 "assets" (asset_manifest "9.1.0")).
Proof.
  apply (loadAssetManifest_returns E10 "assets.json"
           (world E10 [("assets.json", Some (asset_manifest "9.1.0"))])
           (after_call (world E10 [("assets.json", Some (asset_manifest "9.1.0"))])
              (call_for E10 "assets" (asset_manifest "9.1.0")))
           (asset_manifest "9.1.0") eq_refl).
Defined.

(** No file at all, and a file that holds no JSON. *)
Lemma loaders_unreadable_witness :
  (load E10 "manifest.json" (world E10 []) = (Throw (ENOENT "manifest.json"), world E10 [])
   /\ loadAssetManifest E10 "manifest.json" (world E10 [])
      = (Throw (ENOENT "manifest.json"), world E10 []))
  /\ (load E10 "manifest.json" (world E10 [("manifest.json", None)])
      = (Throw SyntaxError, world E10 [("manifest.json", None)])
      /\ loadAssetManifest E10 "manifest.json" (world E10 [("manifest.json", None)])
         = (Throw SyntaxError, world E10 [("manifest.json", None)])).
Proof.
  split.
  - apply (proj1 (loaders_unreadable E10 "manifest.json" (world E10 [])) eq_refl).
  - apply (proj2 (loaders_unreadable E10 "manifest.json"
                    (world E10 [("manifest.json", None)])) None eq_refl eq_refl).
Defined.

(** A build whose version constant reads [latest]. *)
Lemma _validate_invalid_current_witness :
  _validate (env (VStr "latest") assembly_grammar)
    (VObj [("manifest", plain_manifest "1.0.0")]) (VStr "1.0.0")
    (world (env (VStr "latest") assembly_grammar) [])
  = (Throw (Error ("Invalid semver string: " ++ dquote ++ "latest" ++ dquote)),
     world (env (VStr "latest") assembly_grammar) []).
Proof.
  exact (_validate_invalid_current (env (VStr "latest") assembly_grammar)
           (VObj [("manifest", plain_manifest "1.0.0")]) (VStr "1.0.0")
           (world (env (VStr "latest") assembly_grammar) []) eq_refl).
Defined.

(** A manifest of version 11.0.0 under the current version 10.0.0. *)
Lemma load_newer_refused_witness :
  load E10 "manifest.json" (world E10 [("manifest.json", Some (plain_manifest "11.0.0"))])
  = (Throw (Error (VERSION_MISMATCH
                     ++ ": Maximum schema version supported is 10.0.0, but found 11.0.0")),
     world E10 [("manifest.json", Some (plain_manifest "11.0.0"))]).
Proof.
  apply (load_newer_refused E10 "manifest.json"
           (world E10 [("manifest.json", Some (plain_manifest "11.0.0"))])
           (Some (plain_manifest "11.0.0")) (plain_manifest "11.0.0") (plain_manifest "11.0.0")
           "10.0.0" "11.0.0" eq_refl eq_refl eq_refl eq_refl eq_refl eq_refl).
Defined.

(** A manifest with a [runtime] property and no [version], written to a
    file system that accepts the write. *)
Lemma save_writes_witness :
  exists qs,
    save E10 (VObj [("runtime", VObj []); ("artifacts", VObj [])]) "manifest.json" (world E10 [])
    = match write_refused (world E10 []) "manifest.json" (JSON_stringify E10 (VObj qs)) with
      | None => (Ok tt, with_file E10 (world E10 []) "manifest.json"
                          (Some (JSON_stringify E10 (VObj qs))))
      | Some (e, remains) => (Throw e, with_file E10 (world E10 []) "manifest.json" remains)
      end
    /\ NoDup (map fst qs)
    /\ lookup "version" qs = VStr "10.0.0"
    /\ forall k, String.eqb k "version" = false ->
                 lookup k qs = lookup k [("runtime", VObj []); ("artifacts", VObj [])].
Proof.
  apply (save_writes E10 [("runtime", VObj []); ("artifacts", VObj [])] "manifest.json"
           (world E10 [])).
  repeat constructor; simpl; intuition discriminate.
Defined.

(** An asset manifest with a [files] property, saved and loaded. *)
Lemma saveAssetManifest_then_load_witness :
  fst (seq (saveAssetManifest E10 (VObj [("files", VObj [])]) "assets.json")
           (loadAssetManifest E10 "assets.json") (world E10 []))
  = Ok (VObj [("version", VStr "10.0.0"); ("files", VObj [])]).
Proof.
  apply (saveAssetManifest_then_load E10 "assets.json" (world E10 [])
           [("files", VObj [])] "10.0.0" {| errors := [] |}).
  - repeat constructor. simpl. tauto.
  - reflexivity.
  - reflexivity.
  - reflexivity.
  - reflexivity.
  - reflexivity.
  - reflexivity.
  - reflexivity.
Defined.

(** A manifest of version 99.0.0 whose stack-tags payload is a string. *)
Lemma load_ill_shaped_witness :
  load E10 "manifest.json"
    (world E10 [("manifest.json",
                 Some (VObj (("version", VStr "99.0.0") :: manifest_with [] (VStr "env=prod"))))])
  = (Throw TypeError,
     world E10 [("manifest.json",
                 Some (VObj (("version", VStr "99.0.0")
                             :: manifest_with [] (VStr "env=prod"))))]).
Proof.
  apply (load_ill_shaped E10 "manifest.json"
           (world E10 [("manifest.json",
                        Some (VObj (("version", VStr "99.0.0")
                                    :: manifest_with [] (VStr "env=prod"))))])
           (Some (VObj (("version", VStr "99.0.0") :: manifest_with [] (VStr "env=prod"))))
           (VObj (("version", VStr "99.0.0") :: manifest_with [] (VStr "env=prod")))
           eq_refl eq_refl eq_refl).
Defined.
